(** * JuiceFS [warmup]: the fill-cache client of [cmd/warmup.go]

    A shallow embedding of [sendCommand] and [warmup] and the properties
    of the frames they write to the control file.

    Go strings are byte strings: they are modelled by [string] (a list of
    8-bit characters), [len] is [String.length].  Machine integers are [Z]
    with the wrap-around of each conversion written out.  Everything the
    command does to the outside world (files, the control file, the logger,
    the progress bar) is an event appended to a trace; the answers of the
    outside world are read from an environment of oracles. *)

From Stdlib Require Import ZArith Lia.
From Stdlib Require Import Strings.String Strings.Ascii Strings.Byte.
From stdpp Require Import base list strings.

Open Scope string_scope.
Open Scope list_scope.
Open Scope Z_scope.

(** ** Fixed-width integers and their bytes *)

Definition uint32 (z : Z) : Z := z mod 2 ^ 32.
Definition uint16 (z : Z) : Z := z mod 2 ^ 16.

Definition byte_of_Z (z : Z) : byte :=
  match Byte.of_N (Z.to_N (z mod 256)) with
  | Some b => b
  | None => x00
  end.

Definition Z_of_byte (b : byte) : Z := Z.of_N (Byte.to_N b).

(** The [n] low-order bytes of [v], least significant first. *)
Fixpoint le_bytes (n : nat) (v : Z) : list byte :=
  match n with
  | O => []
  | S n' => byte_of_Z v :: le_bytes n' (v / 256)
  end.

(** The number a little-endian byte sequence stands for. *)
Fixpoint le_value (bs : list byte) : Z :=
  match bs with
  | [] => 0
  | b :: r => Z_of_byte b + 256 * le_value r
  end.

(** ** Go's [strings] functions used by the command *)

Definition newline : ascii := "010"%char.
Definition nl : string := String newline EmptyString.

(** [len(s)], a Go [int]. *)
Definition len (s : string) : Z := Z.of_nat (String.length s).

(** [strings.Join(elems, sep)]. *)
Definition strings_Join (elems : list string) (sep : string) : string :=
  String.concat sep elems.

(** [strings.HasPrefix(s, prefix)]. *)
Definition strings_HasPrefix (s pre : string) : bool := String.prefix pre s.

(** [strings.Split(s, sep)] for a one-byte separator: one more piece than
    there are separators, so the empty string splits into one empty piece. *)
Fixpoint strings_Split1 (s : string) (sep : ascii) : list string :=
  match s with
  | EmptyString => [EmptyString]
  | String a r =>
      if Ascii.eqb a sep then EmptyString :: strings_Split1 r sep
      else match strings_Split1 r sep with
           | h :: t => String a h :: t
           | [] => [String a EmptyString]
           end
  end.

(** [s[start:]]; [None] is Go's slice-bounds panic. *)
Definition slice_from (s : string) (start : nat) : option string :=
  if (start <=? String.length s)%nat
  then Some (substring start (String.length s - start) s)
  else None.

(** [[]byte(s)]. *)
Definition bytes_of (s : string) : list byte := list_byte_of_string s.

(** Whether the byte [c] occurs in [s]. *)
Fixpoint has_byte (c : ascii) (s : string) : bool :=
  match s with
  | EmptyString => false
  | String a r => Ascii.eqb a c || has_byte c r
  end.

(** ** [path/filepath] on a Unix system

    [filepath.Clean] by path elements: empty and [.] elements are dropped,
    [..] removes the element before it, stays at the root of a rooted path
    and is kept at the front of a relative one. *)

Definition slash : ascii := "/"%char.

Definition clean_step (rooted : bool) (acc : list string * nat) (e : string)
  : list string * nat :=
  let '(out, dotdot) := acc in
  if String.eqb e "" || String.eqb e "." then (out, dotdot)
  else if String.eqb e ".." then
    if (dotdot <? length out)%nat then (removelast out, dotdot)
    else if rooted then (out, dotdot)
    else (out ++ [".."], S dotdot)
  else (out ++ [e], dotdot).

Definition clean_elems (rooted : bool) (elems : list string) : string :=
  let '(out, _) := foldl (clean_step rooted) ([], O) elems in
  let body := String.concat "/" out in
  if rooted then "/" +:+ body
  else if String.eqb body "" then "." else body.

Definition is_rooted (path : string) : bool := String.prefix "/" path.

Definition filepath_Clean (path : string) : string :=
  clean_elems (is_rooted path) (strings_Split1 path slash).

(** [path[:i+1]] for the index [i] of the last separator ([""] if none). *)
Fixpoint upto_last_slash (path : string) : string :=
  match path with
  | EmptyString => EmptyString
  | String a r =>
      if has_byte slash r then String a (upto_last_slash r)
      else if Ascii.eqb a slash then String a EmptyString
      else EmptyString
  end.

(** [filepath.Dir]: drop the last element, then [Clean]. *)
Definition filepath_Dir (path : string) : string :=
  filepath_Clean (upto_last_slash path).

(** ** The outside world

    A Go [error] is represented by its message. *)

Definition error := string.

(** The control file: what the [k]-th [Write] and the [k]-th [Read] of a
    one-byte buffer answer.  A read answers the count [n], the error and the
    content of the buffer's byte after the call. *)
Record File := {
  file_Write : nat -> list byte -> option error;
  file_Read : nat -> Z * option error * byte
}.

(** What the rest of the repository, the operating system and Go's library
    answer.  [os_Open] gives the lines the [bufio.Scanner] yields and what
    [scanner.Err()] says after them. *)
Record Env := {
  os_Open : string -> (list string * option error) + error;
  strings_TrimSpace : string -> string;
  filepath_Abs : string -> string + error;
  os_Stat_IsDir : string -> bool + error;
  utils_GetFileInode : string -> Z + error;
  openController : string -> option File
}.

Inductive info_msg :=
| NothingToWarmUp
| WarmUpInBackground (count : nat).

Inductive event :=
| EvOpen (fname : string)
| EvClose (fname : string)
| EvAbs (path : string)
| EvStat (path : string)
| EvGetFileInode (path : string)
| EvOpenController (mp : string)
| EvCloseController
| EvWrite (frame : list byte)
| EvRead
| EvInfo (m : info_msg)
| EvWarn (path mp : string)
| EvAddCountBar (total : Z)
| EvIncrBy (n : nat)
| EvDone.

(** The calls of [logger.Fatalf], which end the process. *)
Inductive fatal :=
| FailedToOpenFile (fname : string) (e : error)
| ReadingFileFailed (fname : string) (e : error)
| FailedToGetAbs (path : string) (e : error)
| FailedToStat (path : string) (e : error)
| FailedToLookupInode (path : string) (e : error)
| NotInsideJuiceFS (path : string)
| FailedToOpenControl (mp : string)
| WriteMessage (e : error)
| ReadMessage (n : Z) (e : option error)
| WarmUpFailed (code : byte).

Inductive result (A : Type) :=
| Ret (a : A)
| Fatal (f : fatal)
| Panic
| OutOfFuel.

Arguments Ret {A} a.
Arguments Fatal {A} f.
Arguments Panic {A}.
Arguments OutOfFuel {A}.

Definition trace := list event.

(** A computation reads the trace so far and extends it. *)
Definition M (A : Type) : Type := trace -> result A * trace.

Definition ret {A} (a : A) : M A := fun tr => (Ret a, tr).

Definition bind {A B} (m : M A) (k : A -> M B) : M B :=
  fun tr =>
    match m tr with
    | (Ret a, tr') => k a tr'
    | (Fatal f, tr') => (Fatal f, tr')
    | (Panic, tr') => (Panic, tr')
    | (OutOfFuel, tr') => (OutOfFuel, tr')
    end.

#[global] Instance M_ret : MRet M := @ret.
#[global] Instance M_bind : MBind M := fun A B k m => bind m k.

Definition emit (e : event) : M unit := fun tr => (Ret tt, tr ++ [e]).
Definition fatalf {A} (f : fatal) : M A := fun tr => (Fatal f, tr).
Definition panic {A} : M A := fun tr => (Panic, tr).
Definition out_of_fuel {A} : M A := fun tr => (OutOfFuel, tr).

Definition or_panic {A} (o : option A) : M A :=
  match o with
  | Some a => ret a
  | None => panic
  end.

(** The frames written so far and the number of reads so far. *)
Fixpoint writes (tr : trace) : list (list byte) :=
  match tr with
  | [] => []
  | EvWrite f :: r => f :: writes r
  | _ :: r => writes r
  end.

Fixpoint reads (tr : trace) : nat :=
  match tr with
  | [] => O
  | EvRead :: r => S (reads r)
  | _ :: r => reads r
  end.

Fixpoint warnings (tr : trace) : list string :=
  match tr with
  | [] => []
  | EvWarn p _ :: r => p :: warnings r
  | _ :: r => warnings r
  end.

(** The total the progress bar shows. *)
Fixpoint warmed (tr : trace) : nat :=
  match tr with
  | [] => O
  | EvIncrBy n :: r => (n + warmed r)%nat
  | _ :: r => warmed r
  end.

(** [cf.Write(b)]: the error, if any. *)
Definition Write (cf : File) (b : list byte) : M (option error) :=
  fun tr => (Ret (file_Write cf (length (writes tr)) b), tr ++ [EvWrite b]).

(** [cf.Read(errs)] for a one-byte [errs]. *)
Definition Read (cf : File) : M (Z * option error * byte) :=
  fun tr => (Ret (file_Read cf (reads tr)), tr ++ [EvRead]).

(** ** [utils.Buffer] *)

(** Modelled from the spec: [utils.Buffer] of [pkg/utils] is not under
    [src/].  The spec's wire format has every integer little-endian and
    the fields one after the other; the buffer keeps the size it was made
    with and the bytes put so far. *)
Record Buffer := {
  buf_size : Z;
  buf_bytes : list byte
}.

Definition NewBuffer (sz : Z) : Buffer := {| buf_size := sz; buf_bytes := [] |}.

Definition Put (wb : Buffer) (v : list byte) : Buffer :=
  {| buf_size := buf_size wb; buf_bytes := buf_bytes wb ++ v |}.

Definition Put32 (wb : Buffer) (v : Z) : Buffer := Put wb (le_bytes 4 v).
Definition Put16 (wb : Buffer) (v : Z) : Buffer := Put wb (le_bytes 2 v).
Definition Put8 (wb : Buffer) (v : Z) : Buffer := Put wb (le_bytes 1 v).
Definition Bytes (wb : Buffer) : list byte := buf_bytes wb.

(** ** [cmd/warmup.go] *)

Definition batchMax : nat := Z.to_nat 10240.

(** [batch[:count]] and [batch[index] = v], with Go's bounds checks. *)
Definition slice_to {A} (l : list A) (count : nat) : option (list A) :=
  if (count <=? length l)%nat then Some (take count l) else None.

Definition store {A} (l : list A) (index : nat) (v : A) : option (list A) :=
  if (index <? length l)%nat then Some (<[index := v]> l) else None.

(** [for _, x := range l { s = body(s, x) }]. *)
Fixpoint for_range {S A} (body : S -> A -> M S) (s : S) (l : list A) : M S :=
  match l with
  | [] => mret s
  | x :: r => s' ← body s x; for_range body s' r
  end.

Record Context := {
  ctx_file : string;
  ctx_args : list string;
  ctx_threads : Z;
  ctx_background : bool
}.

Section Warmup.

(** The command code [meta.FillCache]; [pkg/meta] is not under [src/]. *)
Variable meta_FillCache : Z.

(** The frame [sendCommand] builds in [wb]. *)
Definition frame (paths : string) (threads : Z) (background : bool) : list byte :=
  let back : Z := if background then 1 else 0 in
  let wb := NewBuffer (uint32 (8 + 4 + 3 + uint32 (len paths))) in
  let wb := Put32 wb (uint32 meta_FillCache) in
  let wb := Put32 wb (uint32 (4 + 3 + uint32 (len paths))) in
  let wb := Put32 wb (uint32 (len paths)) in
  let wb := Put wb (bytes_of paths) in
  let wb := Put16 wb (uint16 threads) in
  let wb := Put8 wb back in
  Bytes wb.

(** send fill-cache command to controller file *)
Definition sendCommand (cf : File) (batch : list string) (count : nat)
    (threads : Z) (background : bool) : M unit :=
  b ← or_panic (slice_to batch count);
  let paths := strings_Join b nl in
  err ← Write cf (frame paths threads background);
  match err with
  | Some e => fatalf (WriteMessage e)
  | None =>
      if background then emit (EvInfo (WarmUpInBackground count))
      else
        r ← Read cf;
        let '(n, err, errs0) := r in
        if bool_decide (err ≠ None) || bool_decide (n ≠ 1) then
          fatalf (ReadMessage n err)
        else if bool_decide (Z_of_byte errs0 ≠ 0) then fatalf (WarmUpFailed errs0)
        else mret tt
  end.

(** Lines 63-80: the positional arguments, then the non-blank lines of
    the file, trimmed. *)
Definition add_line (env : Env) (paths : list string) (line : string) : list string :=
  let p := strings_TrimSpace env line in
  if bool_decide (p ≠ "") then paths ++ [p] else paths.

Definition read_paths (env : Env) (ctx : Context) : M (list string) :=
  let fname := ctx_file ctx in
  let paths := ctx_args ctx in
  if bool_decide (fname ≠ "") then
    emit (EvOpen fname);;
    match os_Open env fname with
    | inr e => fatalf (FailedToOpenFile fname e)
    | inl (lines, scan_err) =>
        let paths := foldl (add_line env) paths lines in
        match scan_err with
        | Some e => fatalf (ReadingFileFailed fname e)
        | None => mret paths
        end
    end
  else mret paths.

(** The deferred [fd.Close()], run when [warmup] returns. *)
Definition close_file (ctx : Context) : M unit :=
  if bool_decide (ctx_file ctx ≠ "") then emit (EvClose (ctx_file ctx)) else mret tt.

(** Lines 101-109: [for ; mp != "/"; mp = filepath.Dir(mp)]; the value is
    [mp] after the loop. *)
Fixpoint mount_loop (fuel : nat) (env : Env) (mp : string) : M string :=
  if bool_decide (mp ≠ "/") then
    match fuel with
    | O => out_of_fuel
    | S fuel' =>
        emit (EvGetFileInode mp);;
        match utils_GetFileInode env mp with
        | inr e => fatalf (FailedToLookupInode mp e)
        | inl inode =>
            if bool_decide (inode = 1) then mret mp
            else mount_loop fuel' env (filepath_Dir mp)
        end
    end
  else mret mp.

(** Lines 86-112: find mount point. *)
Definition find_mount_point (fuel : nat) (env : Env) (path0 : string) : M string :=
  emit (EvAbs path0);;
  match filepath_Abs env path0 with
  | inr e => fatalf (FailedToGetAbs path0 e)
  | inl first =>
      emit (EvStat first);;
      match os_Stat_IsDir env first with
      | inr e => fatalf (FailedToStat first e)
      | inl is_dir =>
          let mp := if is_dir then first else filepath_Dir first in
          mp ← mount_loop fuel env mp;
          if bool_decide (mp = "/") then fatalf (NotInsideJuiceFS first)
          else mret mp
      end
  end.

(** Lines 127-140: the body of the loop over the paths; the state is
    [batch] and [index]. *)
Definition batch_step (cap : nat) (controller : File) (threads : Z)
    (background : bool) (mp : string) (start : nat)
    (st : list string * nat) (path : string) : M (list string * nat) :=
  let '(batch, index) := st in
  if strings_HasPrefix path mp then
    rest ← or_panic (slice_from path start);
    batch ← or_panic (store batch index rest);
    let index := S index in
    if (cap <=? index)%nat then
      sendCommand controller batch index threads background;;
      emit (EvIncrBy index);;
      mret (batch, O)
    else mret (batch, index)
  else
    emit (EvWarn path mp);;
    mret (batch, index).

(** Lines 122-144, for a batch array of [cap] strings. *)
Definition send_batches (cap : nat) (controller : File) (threads : Z)
    (background : bool) (mp : string) (paths : list string) : M unit :=
  let start := String.length mp in
  let batch := replicate cap "" in
  emit (EvAddCountBar (Z.of_nat (length paths)));;
  st ← for_range (batch_step cap controller threads background mp start)
         (batch, O) paths;
  let '(batch, index) := st in
  if (0 <? index)%nat then
    sendCommand controller batch index threads background;;
    emit (EvIncrBy index)
  else mret tt.

Definition warmup (fuel : nat) (env : Env) (ctx : Context) : M unit :=
  paths ← read_paths env ctx;
  match paths with
  | [] =>
      emit (EvInfo NothingToWarmUp);;
      close_file ctx
  | path0 :: _ =>
      mp ← find_mount_point fuel env path0;
      emit (EvOpenController mp);;
      match openController env mp with
      | None => fatalf (FailedToOpenControl mp)
      | Some controller =>
          send_batches batchMax controller (ctx_threads ctx)
            (ctx_background ctx) mp paths;;
          emit EvDone;;
          emit EvCloseController;;
          close_file ctx
      end
  end.

End Warmup.

(** ** The receiving side and the words of the specification *)

(** Modelled from the spec: the service that reads the control file is not
    under [src/].  A frame is read field by field as the wire format lays
    them out: command code, payload length, path-block length, path block,
    thread count, background flag. *)
Record Request := {
  req_command : Z;
  req_size : Z;
  req_block_size : Z;
  req_block : string;
  req_threads : Z;
  req_background : Z
}.

Definition parse_frame (f : list byte) : option Request :=
  let command := le_value (take 4 f) in
  let size := le_value (take 4 (drop 4 f)) in
  let payload := drop 8 f in
  let n := le_value (take 4 payload) in
  let block := take (Z.to_nat n) (drop 4 payload) in
  let tail := drop (Z.to_nat n) (drop 4 payload) in
  if bool_decide (Z.of_nat (length payload) = size)
     && bool_decide (length block = Z.to_nat n)
     && bool_decide (length tail = 3%nat)
  then Some {| req_command := command;
               req_size := size;
               req_block_size := n;
               req_block := string_of_list_byte block;
               req_threads := le_value (take 2 tail);
               req_background := le_value (drop 2 tail) |}
  else None.

(** The entries of a received path block. *)
Definition block_entries (block : string) : list string :=
  strings_Split1 block newline.

(** A path is under the mount point when the mount point is a prefix of it,
    as a string; what is left of it is [path[len(mp):]]. *)
Definition under (mp path : string) : bool := strings_HasPrefix path mp.

Definition strip (mp path : string) : string :=
  substring (String.length mp) (String.length path - String.length mp) path.

Definition stripped (mp : string) (paths : list string) : list string :=
  map (strip mp) (List.filter (under mp) paths).

Definition skipped (mp : string) (paths : list string) : list string :=
  List.filter (fun p => negb (under mp p)) paths.

(** Consecutive chunks of [cap] elements, the last one shorter when the
    length is no multiple of [cap]. *)
Fixpoint chunks_fuel {A} (fuel cap : nat) (l : list A) : list (list A) :=
  match fuel with
  | O => []
  | S fuel' =>
      match l with
      | [] => []
      | _ => take cap l :: chunks_fuel fuel' cap (drop cap l)
      end
  end.

Definition chunks {A} (cap : nat) (l : list A) : list (list A) :=
  chunks_fuel (length l) cap l.

(** The length of the elements of a path, each with one separator. *)
Fixpoint weight (elems : list string) : nat :=
  match elems with
  | [] => O
  | e :: r => (String.length e + 1 + weight r)%nat
  end.

(** The [k]-th directory the mount-point loop looks at. *)
Definition candidate (start : string) (k : nat) : string :=
  Nat.iter k filepath_Dir start.

(** No directory before the [k]-th candidate is ["/"] or has inode 1. *)
Definition climbs (env : Env) (start : string) (k : nat) : Prop :=
  forall j, (j < k)%nat ->
    candidate start j ≠ "/" /\
    exists inode, utils_GetFileInode env (candidate start j) = inl inode /\ inode ≠ 1.

(** The inode lookups of the first [n] candidates. *)
Definition queries (start : string) (n : nat) : trace :=
  map (fun j => EvGetFileInode (candidate start j)) (seq 0 n).

(** The events of mount resolution and of the control file. *)
Definition touches_mount (e : event) : bool :=
  match e with
  | EvAbs _ | EvStat _ | EvGetFileInode _ | EvOpenController _
  | EvCloseController | EvWrite _ | EvRead => true
  | _ => false
  end.

(** The control file takes every frame and, when asked, answers one zero
    byte. *)
Definition accepts (cf : File) (background : bool) : Prop :=
  (forall k b, file_Write cf k b = None) /\
  (background = false -> forall k, file_Read cf k = (1, None, x00)).

(** What a read says about the request. *)
Definition status_outcome (r : Z * option error * byte) : result unit :=
  let '(n, err, errs0) := r in
  if bool_decide (err ≠ None) || bool_decide (n ≠ 1) then Fatal (ReadMessage n err)
  else if bool_decide (Z_of_byte errs0 ≠ 0) then Fatal (WarmUpFailed errs0)
  else Ret tt.

(** The failures of the control file. *)
Definition channel_failure (f : fatal) : Prop :=
  match f with
  | WriteMessage _ | ReadMessage _ _ | WarmUpFailed _ => True
  | _ => False
  end.

(** [f] is how some call of [sendCommand] on this control file ends. *)
Definition send_failed (meta_FillCache : Z) (cf : File) (threads : Z)
    (background : bool) (f : fatal) : Prop :=
  exists batch count tr,
    (count <= length batch)%nat /\
    fst (sendCommand meta_FillCache cf batch count threads background tr) = Fatal f.

(** The frame of a batch. *)
Definition batch_frame (meta_FillCache : Z) (threads : Z) (background : bool)
    (batch : list string) : list byte :=
  frame meta_FillCache (strings_Join batch nl) threads background.

(** The paths of the run: the arguments, then the trimmed non-blank lines. *)
Definition file_paths (env : Env) (lines : list string) : list string :=
  List.filter (fun p => negb (String.eqb p ""))
    (map (strings_TrimSpace env) lines).

(** ** Small worlds to run the command in *)

Definition FillCache_example : Z := 1004.

Definition ok_file : File :=
  {| file_Write := fun _ _ => None;
     file_Read := fun _ => (1, None, x00) |}.

(** A control file that answers status 2 to the first read. *)
Definition failing_file : File :=
  {| file_Write := fun _ _ => None;
     file_Read := fun _ => (1, None, x02) |}.

(** A file system where [/a/b] and [/mnt/jfs] are mount points. *)
Definition example_env : Env :=
  {| os_Open := fun _ => inr "no such file or directory";
     strings_TrimSpace := fun s => s;
     filepath_Abs := fun p => inl p;
     os_Stat_IsDir := fun p =>
       inl (String.eqb p "/a/b/c" || String.eqb p "/a/b" || String.eqb p "/mnt/jfs");
     utils_GetFileInode := fun p =>
       inl (if String.eqb p "/a/b" || String.eqb p "/mnt/jfs" then 1 else 2);
     openController := fun _ => Some ok_file |}.

(** An input file of blank lines only. *)
Definition blank_env : Env :=
  {| os_Open := fun _ => inl (["" ; ""], None);
     strings_TrimSpace := fun s => s;
     filepath_Abs := fun p => inl p;
     os_Stat_IsDir := fun _ => inl false;
     utils_GetFileInode := fun _ => inl 2;
     openController := fun _ => Some ok_file |}.

(** A batch entry with a newline in it. *)
Definition newline_entry : string := "/a" +:+ nl +:+ "b".

(** [juicefs warmup /other/z /mnt/jfs/x] and [juicefs warmup -f list.txt]. *)
Definition example_ctx : Context :=
  {| ctx_file := "";
     ctx_args := ["/other/z"; "/mnt/jfs/x"];
     ctx_threads := 50;
     ctx_background := false |}.

Definition blank_ctx : Context :=
  {| ctx_file := "list.txt";
     ctx_args := [];
     ctx_threads := 50;
     ctx_background := false |}.

(** ** More of the command's behaviour *)

(** The buffer [wb] of [sendCommand] after the last [Put8]. *)
Definition frame_buffer (meta_FillCache : Z) (paths : string) (threads : Z)
    (background : bool) : Buffer :=
  let back : Z := if background then 1 else 0 in
  let wb := NewBuffer (uint32 (8 + 4 + 3 + uint32 (len paths))) in
  let wb := Put32 wb (uint32 meta_FillCache) in
  let wb := Put32 wb (uint32 (4 + 3 + uint32 (len paths))) in
  let wb := Put32 wb (uint32 (len paths)) in
  let wb := Put wb (bytes_of paths) in
  let wb := Put16 wb (uint16 threads) in
  Put8 wb back.

(** The writes ([true]) and reads ([false]) of the control file, in order. *)
Fixpoint channel (tr : trace) : list bool :=
  match tr with
  | [] => []
  | EvWrite _ :: r => true :: channel r
  | EvRead :: r => false :: channel r
  | _ :: r => channel r
  end.

(** Two traces with the same writes, reads and warnings. *)
Definition same_io (t1 t2 : trace) : Prop :=
  channel t1 = channel t2 /\ writes t1 = writes t2 /\ warnings t1 = warnings t2.

(** [k] requests, each with its answer unless in background. *)
Definition exchanges (background : bool) (k : nat) : list bool :=
  concat (replicate k (if background then [true] else [true; false])).

(** An input file that cannot be opened, and a directory whose inode cannot
    be read. *)
Definition unreadable_ctx : Context :=
  {| ctx_file := "missing.txt";
     ctx_args := ["/mnt/jfs/x"];
     ctx_threads := 50;
     ctx_background := false |}.

Definition broken_env : Env :=
  {| os_Open := fun _ => inl (["/mnt/jfs/x"], Some "read error");
     strings_TrimSpace := fun s => s;
     filepath_Abs := fun p => inl p;
     os_Stat_IsDir := fun _ => inl false;
     utils_GetFileInode := fun p =>
       if String.eqb p "/mnt" then inr "permission denied" else inl 2;
     openController := fun _ => None |}.

(** A mount point whose control file cannot be opened. *)
Definition closed_env : Env :=
  {| os_Open := fun _ => inr "no such file or directory";
     strings_TrimSpace := fun s => s;
     filepath_Abs := fun p => inl p;
     os_Stat_IsDir := fun p => inl (String.eqb p "/mnt/jfs");
     utils_GetFileInode := fun p => inl (if String.eqb p "/mnt/jfs" then 1 else 2);
     openController := fun _ => None |}.

(** A control file that refuses the second frame. *)
Definition full_file : File :=
  {| file_Write := fun k _ => if (k =? 1)%nat then Some "no space left" else None;
     file_Read := fun _ => (1, None, x00) |}.

(** [juicefs warmup /mnt/jfs/x /other/z /mnt/jfs/y]. *)
Definition run_ctx : Context :=
  {| ctx_file := "";
     ctx_args := ["/mnt/jfs/x"; "/other/z"; "/mnt/jfs/y"];
     ctx_threads := 50;
     ctx_background := false |}.

(** [juicefs warmup /mnt/jfs/a /mnt/jfs2/x]: the second path is in a
    directory next to the mount point, with a name that begins like it. *)
Definition sibling_ctx : Context :=
  {| ctx_file := "";
     ctx_args := ["/mnt/jfs/a"; "/mnt/jfs2/x"];
     ctx_threads := 50;
     ctx_background := false |}.

(** ** Bytes *)

Lemma Z_of_byte_range (b : byte) : 0 <= Z_of_byte b < 256.
Proof.
  unfold Z_of_byte. pose proof (Byte.to_N_bounded b). lia.
Qed.

Lemma Z_of_byte_of_Z (z : Z) : Z_of_byte (byte_of_Z z) = z mod 256.
Proof.
  unfold Z_of_byte, byte_of_Z.
  assert (Hr : 0 <= z mod 256 < 256) by (apply Z.mod_pos_bound; lia).
  destruct (Byte.of_N (Z.to_N (z mod 256))) as [b|] eqn:E.
  - apply Byte.to_of_N in E. rewrite E. lia.
  - apply Byte.of_N_None_iff in E. lia.
Qed.

Lemma length_le_bytes (n : nat) (v : Z) : length (le_bytes n v) = n.
Proof.
  revert v. induction n as [|n IH]; intros v; simpl; [reflexivity|].
  now rewrite IH.
Qed.

Lemma le_value_le_bytes (n : nat) (v : Z) :
  le_value (le_bytes n v) = v mod 256 ^ Z.of_nat n.
Proof.
  revert v. induction n as [|n IH]; intros v.
  - simpl. now rewrite Z.mod_1_r.
  - cbn [le_bytes le_value]. rewrite Z_of_byte_of_Z, IH.
    rewrite Nat2Z.inj_succ, Z.pow_succ_r by lia.
    rewrite Z.rem_mul_r; [reflexivity | lia |].
    apply Z.pow_pos_nonneg; lia.
Qed.

Lemma le_value_range (bs : list byte) : 0 <= le_value bs < 256 ^ Z.of_nat (length bs).
Proof.
  induction bs as [|b r IH].
  - simpl. lia.
  - cbn [le_value length]. rewrite Nat2Z.inj_succ, Z.pow_succ_r by lia.
    pose proof (Z_of_byte_range b). lia.
Qed.

Lemma le_field (n : nat) (v : Z) :
  0 <= v < 256 ^ Z.of_nat n -> le_value (le_bytes n v) = v.
Proof.
  intros H. rewrite le_value_le_bytes. now apply Z.mod_small.
Qed.

Lemma uint32_range (z : Z) : 0 <= uint32 z < 2 ^ 32.
Proof. unfold uint32. apply Z.mod_pos_bound. lia. Qed.

Lemma uint16_range (z : Z) : 0 <= uint16 z < 2 ^ 16.
Proof. unfold uint16. apply Z.mod_pos_bound. lia. Qed.

Lemma uint32_small (z : Z) : 0 <= z < 2 ^ 32 -> uint32 z = z.
Proof. intros H. unfold uint32. now apply Z.mod_small. Qed.

Lemma len_nonneg (s : string) : 0 <= len s.
Proof. unfold len. lia. Qed.

Lemma length_bytes_of (s : string) : length (bytes_of s) = String.length s.
Proof.
  unfold bytes_of, list_byte_of_string.
  rewrite length_map. induction s as [|a r IH]; simpl; [reflexivity|].
  now rewrite IH.
Qed.

(** ** The frame *)

Section Frame.

Variable meta_FillCache : Z.

Lemma frame_fields (paths : string) (threads : Z) (background : bool) :
  frame meta_FillCache paths threads background =
    le_bytes 4 (uint32 meta_FillCache)
    ++ le_bytes 4 (uint32 (4 + 3 + uint32 (len paths)))
    ++ le_bytes 4 (uint32 (len paths))
    ++ bytes_of paths
    ++ le_bytes 2 (uint16 threads)
    ++ le_bytes 1 (if background then 1 else 0).
Proof.
  unfold frame, Bytes, Put8, Put16, Put32, Put, NewBuffer. cbn [buf_bytes buf_size].
  rewrite app_nil_l, <- !app_assoc. reflexivity.
Qed.

Lemma frame_length (paths : string) (threads : Z) (background : bool) :
  Z.of_nat (length (frame meta_FillCache paths threads background)) = 15 + len paths.
Proof.
  rewrite frame_fields, !length_app, !length_le_bytes, length_bytes_of.
  unfold len. lia.
Qed.

(** The buffer is made with the size of the frame when the size fits. *)
Lemma frame_fills_buffer (paths : string) :
  len paths + 15 < 2 ^ 32 ->
  uint32 (8 + 4 + 3 + uint32 (len paths)) = 15 + len paths.
Proof.
  intros H. pose proof (len_nonneg paths).
  rewrite (uint32_small (len paths)) by lia. rewrite uint32_small by lia. lia.
Qed.

Lemma parse_layout (a b c blk t u : list byte) :
  length a = 4%nat -> length b = 4%nat -> length c = 4%nat ->
  length t = 2%nat -> length u = 1%nat ->
  le_value b = 7 + Z.of_nat (length blk) ->
  le_value c = Z.of_nat (length blk) ->
  parse_frame (a ++ b ++ c ++ blk ++ t ++ u) =
    Some {| req_command := le_value a;
            req_size := le_value b;
            req_block_size := le_value c;
            req_block := string_of_list_byte blk;
            req_threads := le_value t;
            req_background := le_value u |}.
Proof.
  intros Ha Hb Hc Ht Hu Hsize Hn. unfold parse_frame.
  rewrite (take_app_length' a) by done.
  replace (drop 4 (a ++ b ++ c ++ blk ++ t ++ u)) with (b ++ c ++ blk ++ t ++ u)
    by (symmetry; now apply drop_app_length').
  rewrite (take_app_length' b) by done.
  replace (drop 8 (a ++ b ++ c ++ blk ++ t ++ u)) with (c ++ blk ++ t ++ u).
  2:{ symmetry. rewrite (app_assoc a b). apply drop_app_length'.
      rewrite length_app. lia. }
  rewrite (take_app_length' c) by done.
  rewrite (drop_app_length' c) by done.
  rewrite Hn, Nat2Z.id, take_app_length, drop_app_length.
  rewrite (take_app_length' t) by done.
  rewrite (drop_app_length' t) by done.
  rewrite !bool_decide_eq_true_2; [reflexivity | | | ].
  - rewrite length_app. lia.
  - reflexivity.
  - rewrite !length_app. lia.
Qed.

Lemma parse_frame_frame (paths : string) (threads : Z) (background : bool) :
  0 <= meta_FillCache < 2 ^ 32 ->
  len paths + 7 < 2 ^ 32 ->
  parse_frame (frame meta_FillCache paths threads background) =
    Some {| req_command := meta_FillCache;
            req_size := 4 + 3 + len paths;
            req_block_size := len paths;
            req_block := paths;
            req_threads := threads mod 2 ^ 16;
            req_background := if background then 1 else 0 |}.
Proof.
  intros HF Hlen. pose proof (len_nonneg paths) as Hp.
  rewrite frame_fields.
  rewrite (uint32_small (len paths)) by lia.
  rewrite (uint32_small (4 + 3 + len paths)) by lia.
  rewrite (uint32_small meta_FillCache) by lia.
  assert (Hl : len paths = Z.of_nat (length (bytes_of paths))).
  { rewrite length_bytes_of. reflexivity. }
  rewrite parse_layout; rewrite ?length_le_bytes; try reflexivity.
  - rewrite !le_field. 
    + unfold bytes_of. rewrite string_of_list_byte_of_string. reflexivity.
    + destruct background; simpl; lia.
    + apply uint16_range.
    + simpl. lia.
    + simpl. lia.
    + simpl. lia.
  - rewrite le_field; simpl; lia.
  - rewrite le_field; simpl; lia.
Qed.

End Frame.

(** ** Joining and splitting *)

Lemma split_no_sep (c : ascii) (s : string) :
  has_byte c s = false -> strings_Split1 s c = [s].
Proof.
  induction s as [|a r IH]; simpl; [reflexivity|].
  intros H. apply orb_false_iff in H as [Ha Hr].
  rewrite Ha, (IH Hr). reflexivity.
Qed.

Lemma split_app_sep (c : ascii) (s r : string) :
  has_byte c s = false ->
  strings_Split1 (s +:+ String c r) c = s :: strings_Split1 r c.
Proof.
  induction s as [|a s IH]; simpl.
  - intros _. now rewrite Ascii.eqb_refl.
  - intros H. apply orb_false_iff in H as [Ha Hs].
    rewrite Ha, (IH Hs). reflexivity.
Qed.

Lemma split_join (batch : list string) :
  batch ≠ [] ->
  Forall (fun p => has_byte newline p = false) batch ->
  block_entries (strings_Join batch nl) = batch.
Proof.
  unfold block_entries, strings_Join, nl.
  induction batch as [|p rest IH]; [done|].
  intros _ Hall. apply Forall_cons in Hall as [Hp Hrest].
  destruct rest as [|q rest].
  - simpl. now apply split_no_sep.
  - change (String.concat (String newline "") (p :: q :: rest))
      with (p +:+ String newline (String.concat (String newline "") (q :: rest))).
    rewrite split_app_sep by done. f_equal. now apply IH.
Qed.

Lemma split_nonempty (c : ascii) (s : string) : strings_Split1 s c ≠ [].
Proof.
  destruct s as [|a r]; simpl; [done|].
  destruct (Ascii.eqb a c); [done|]. now destruct (strings_Split1 r c).
Qed.

(** The other way round, for any string. *)
Lemma join_split (c : ascii) (s : string) :
  String.concat (String c "") (strings_Split1 s c) = s.
Proof.
  induction s as [|a r IH]; [reflexivity|].
  simpl. pose proof (split_nonempty c r) as Hne.
  destruct (strings_Split1 r c) as [|h t] eqn:S; [done|].
  destruct (Ascii.eqb a c) eqn:E.
  - apply Ascii.eqb_eq in E. subst a.
    change (String.concat (String c "") ("" :: h :: t))
      with (String c (String.concat (String c "") (h :: t))).
    now rewrite IH.
  - destruct t; simpl in *; now rewrite <- IH.
Qed.

(** ** Traces *)

Lemma writes_app (t1 t2 : trace) : writes (t1 ++ t2) = writes t1 ++ writes t2.
Proof.
  induction t1 as [|e t1 IH]; [reflexivity|].
  destruct e; simpl; now rewrite IH.
Qed.

Lemma reads_app (t1 t2 : trace) : reads (t1 ++ t2) = (reads t1 + reads t2)%nat.
Proof.
  induction t1 as [|e t1 IH]; [reflexivity|].
  destruct e; simpl; now rewrite IH.
Qed.

Lemma warnings_app (t1 t2 : trace) :
  warnings (t1 ++ t2) = warnings t1 ++ warnings t2.
Proof.
  induction t1 as [|e t1 IH]; [reflexivity|].
  destruct e; simpl; now rewrite IH.
Qed.

Lemma warmed_app (t1 t2 : trace) : warmed (t1 ++ t2) = (warmed t1 + warmed t2)%nat.
Proof.
  induction t1 as [|e t1 IH]; [reflexivity|].
  destruct e; simpl; rewrite IH; lia.
Qed.

(** ** Running a computation *)

Lemma run_bind {A B} (m : M A) (k : A -> M B) (tr : trace) :
  (m ≫= k) tr =
    match m tr with
    | (Ret a, tr') => k a tr'
    | (Fatal f, tr') => (Fatal f, tr')
    | (Panic, tr') => (Panic, tr')
    | (OutOfFuel, tr') => (OutOfFuel, tr')
    end.
Proof. reflexivity. Qed.

Lemma run_ret {A} (a : A) (tr : trace) : (mret a : M A) tr = (Ret a, tr).
Proof. reflexivity. Qed.

Lemma run_emit_then {B} (e : event) (k : unit -> M B) (tr : trace) :
  (emit e ≫= k) tr = k tt (tr ++ [e]).
Proof. reflexivity. Qed.

Section SendCommand.

Variable meta_FillCache : Z.

Lemma sendCommand_run (cf : File) (batch : list string) (count : nat)
    (threads : Z) (background : bool) (tr : trace) :
  (count <= length batch)%nat ->
  sendCommand meta_FillCache cf batch count threads background tr =
    let fr := frame meta_FillCache (strings_Join (take count batch) nl) threads background in
    match file_Write cf (length (writes tr)) fr with
    | Some e => (Fatal (WriteMessage e), tr ++ [EvWrite fr])
    | None =>
        if background
        then (Ret tt, tr ++ [EvWrite fr; EvInfo (WarmUpInBackground count)])
        else (status_outcome (file_Read cf (reads tr)), tr ++ [EvWrite fr; EvRead])
    end.
Proof.
  intros Hc. unfold sendCommand, slice_to.
  apply Nat.leb_le in Hc. rewrite Hc. cbn [or_panic].
  rewrite run_bind, run_ret, run_bind. unfold Write at 1.
  cbv zeta.
  destruct (file_Write cf (length (writes tr)) _) as [e|]; [reflexivity|].
  destruct background.
  - unfold emit. now rewrite <- app_assoc.
  - rewrite run_bind. unfold Read.
    rewrite reads_app. simpl reads. rewrite Nat.add_0_r.
    rewrite <- app_assoc. simpl app.
    unfold status_outcome.
    destruct (file_Read cf (reads tr)) as [[n err] b].
    destruct (bool_decide (err ≠ None) || bool_decide (n ≠ 1)); [reflexivity|].
    destruct (bool_decide (Z_of_byte b ≠ 0)); reflexivity.
Qed.

End SendCommand.

(** ** Chunks *)

Section Chunks.

Context {A : Type}.
Variable cap : nat.
Hypothesis cap_pos : (0 < cap)%nat.

Lemma chunks_fuel_enough (f1 f2 : nat) (l : list A) :
  (length l <= f1)%nat -> (length l <= f2)%nat ->
  chunks_fuel f1 cap l = chunks_fuel f2 cap l.
Proof.
  revert f2 l. induction f1 as [|f1 IH]; intros f2 l H1 H2.
  - destruct l; [|simpl in H1; lia]. now destruct f2.
  - destruct l as [|x l]; [now destruct f2|].
    destruct f2 as [|f2]; [simpl in H2; lia|].
    cbn [chunks_fuel]. f_equal. apply IH.
    + rewrite length_drop. simpl in *. lia.
    + rewrite length_drop. simpl in *. lia.
Qed.

Lemma chunks_nil : chunks cap (@nil A) = [].
Proof. reflexivity. Qed.

Lemma chunks_unfold (l : list A) :
  l ≠ [] -> chunks cap l = take cap l :: chunks cap (drop cap l).
Proof.
  intros Hl. destruct l as [|x l]; [done|].
  unfold chunks. cbn [length chunks_fuel]. f_equal.
  apply chunks_fuel_enough; rewrite ?length_drop; simpl; lia.
Qed.

Lemma chunks_full (c l : list A) :
  length c = cap -> chunks cap (c ++ l) = c :: chunks cap l.
Proof.
  intros Hc. rewrite chunks_unfold.
  - now rewrite take_app_length', drop_app_length'.
  - destruct c; [simpl in Hc; lia | done].
Qed.

Lemma chunks_short (c : list A) :
  (0 < length c <= cap)%nat -> chunks cap c = [c].
Proof.
  intros Hc. rewrite chunks_unfold.
  - rewrite take_ge, drop_ge by lia. reflexivity.
  - destruct c; [simpl in Hc; lia | done].
Qed.

Lemma concat_chunks_fuel (fuel : nat) (l : list A) :
  (length l <= fuel)%nat -> concat (chunks_fuel fuel cap l) = l.
Proof.
  revert l. induction fuel as [|fuel IH]; intros l H.
  - destruct l; [reflexivity | simpl in H; lia].
  - destruct l as [|x l]; [reflexivity|].
    cbn [chunks_fuel concat]. rewrite IH.
    + apply take_drop.
    + rewrite length_drop. simpl in *. lia.
Qed.

Lemma concat_chunks (l : list A) : concat (chunks cap l) = l.
Proof. now apply concat_chunks_fuel. Qed.

Lemma chunks_fuel_sizes (fuel : nat) (l : list A) :
  Forall (fun b => (0 < length b <= cap)%nat) (chunks_fuel fuel cap l).
Proof.
  revert l. induction fuel as [|fuel IH]; intros l; [constructor|].
  destruct l as [|x l]; [constructor|].
  cbn [chunks_fuel]. constructor; [|apply IH].
  rewrite length_take. simpl. lia.
Qed.

Lemma chunks_sizes (l : list A) :
  Forall (fun b => (0 < length b <= cap)%nat) (chunks cap l).
Proof. apply chunks_fuel_sizes. Qed.

Lemma chunks_fuel_inner_full (fuel : nat) (l : list A) (i : nat) (b : list A) :
  chunks_fuel fuel cap l !! i = Some b ->
  (S i < length (chunks_fuel fuel cap l))%nat ->
  length b = cap.
Proof.
  revert l i. induction fuel as [|fuel IH]; intros l i; [done|].
  destruct l as [|x l]; [done|].
  cbn [chunks_fuel]. destruct i as [|i]; cbn [lookup list_lookup length].
  - intros [= <-] Hlen.
    destruct fuel as [|fuel]; [simpl in Hlen; lia|].
    destruct (drop cap (x :: l)) as [|y r] eqn:E; [simpl in Hlen; lia|].
    assert (length (drop cap (x :: l)) ≠ 0%nat) as Hd by now rewrite E.
    rewrite length_drop in Hd. rewrite length_take. lia.
  - intros Hb Hlen. apply (IH _ _ Hb). lia.
Qed.

Lemma chunks_inner_full (l : list A) (i : nat) (b : list A) :
  chunks cap l !! i = Some b ->
  (S i < length (chunks cap l))%nat ->
  length b = cap.
Proof. apply chunks_fuel_inner_full. Qed.

End Chunks.

(** ** One call of [sendCommand] *)

Section Batches.

Variable meta_FillCache : Z.
Variable cap : nat.
Hypothesis cap_pos : (0 < cap)%nat.
Variable cf : File.
Variable threads : Z.
Variable background : bool.
Variable mp : string.

Local Abbreviation send := (sendCommand meta_FillCache cf).
Local Abbreviation bf := (batch_frame meta_FillCache threads background).
Local Abbreviation step := (batch_step meta_FillCache cap cf threads background mp (String.length mp)).

Lemma sendCommand_effects (batch : list string) (count : nat) (tr : trace) :
  (count <= length batch)%nat ->
  let r := send batch count threads background tr in
  writes (snd r) = writes tr ++ [bf (take count batch)] /\
  warnings (snd r) = warnings tr /\
  warmed (snd r) = warmed tr /\
  (fst r = Ret tt \/ exists f, fst r = Fatal f /\ channel_failure f).
Proof.
  intros Hc r. subst r. rewrite sendCommand_run by done. cbv zeta.
  fold (bf (take count batch)).
  destruct (file_Write cf _ _) as [e|].
  { cbn [fst snd]. rewrite writes_app, warnings_app, warmed_app. simpl.
    rewrite app_nil_r, Nat.add_0_r. repeat split. right. eexists. split; [reflexivity|]. exact I. }
  destruct background.
  { cbn [fst snd]. rewrite writes_app, warnings_app, warmed_app. simpl.
    rewrite app_nil_r, Nat.add_0_r. repeat split. now left. }
  cbn [fst snd]. rewrite writes_app, warnings_app, warmed_app. simpl.
  rewrite app_nil_r, Nat.add_0_r. repeat split.
  unfold status_outcome. destruct (file_Read cf _) as [[n err] b].
  destruct (_ || _); [right; eexists; split; [reflexivity | exact I]|].
  destruct (bool_decide _); [right; eexists; split; [reflexivity | exact I]|].
  now left.
Qed.

Lemma send_failed_channel (f : fatal) :
  send_failed meta_FillCache cf threads background f -> channel_failure f.
Proof.
  intros (batch & count & tr & Hc & Hf).
  destruct (sendCommand_effects batch count tr Hc) as (_ & _ & _ & [H | (g & Hg & Hch)]).
  - rewrite H in Hf. discriminate.
  - rewrite Hg in Hf. inversion Hf; subst. assumption.
Qed.

Lemma sendCommand_accepted (batch : list string) (count : nat) (tr : trace) :
  accepts cf background -> (count <= length batch)%nat ->
  fst (send batch count threads background tr) = Ret tt.
Proof.
  intros [Hw Hr] Hc. rewrite sendCommand_run by done. cbv zeta.
  rewrite Hw. destruct background; [reflexivity|].
  rewrite Hr by reflexivity. reflexivity.
Qed.

(** ** The loop over the paths *)

Lemma prefix_length (a b : string) :
  String.prefix a b = true -> (String.length a <= String.length b)%nat.
Proof.
  revert b. induction a as [|x a IH]; intros b; simpl; [lia|].
  destruct b as [|y b]; simpl; [done|].
  destruct (ascii_dec x y); [|done].
  intros H. apply IH in H. simpl. lia.
Qed.

Lemma slice_from_under (path : string) :
  under mp path = true ->
  slice_from path (String.length mp) = Some (strip mp path).
Proof.
  intros H. apply prefix_length in H. unfold slice_from.
  apply Nat.leb_le in H. now rewrite H.
Qed.

Lemma substring_all (s : string) : substring 0 (String.length s) s = s.
Proof. induction s as [|a s IH]; simpl; [reflexivity | now rewrite IH]. Qed.

Lemma prefix_split (m path : string) :
  String.prefix m path = true ->
  path = m +:+ substring (String.length m) (String.length path - String.length m) path.
Proof.
  revert path. induction m as [|a m IH]; intros path.
  - intros _. simpl. rewrite Nat.sub_0_r. now rewrite substring_all.
  - destruct path as [|b q]; simpl; [done|].
    destruct (ascii_dec a b) as [<-|]; [|done].
    intros H. change (String a q = String a (m +:+
      substring (String.length m) (String.length q - String.length m) q)).
    f_equal. now apply IH.
Qed.

(** A path under the mount point is the mount point followed by what is
    left of it. *)
Lemma under_strip (path : string) :
  under mp path = true -> path = mp +:+ strip mp path.
Proof. apply prefix_split. Qed.

Lemma step_under (batch : list string) (index : nat) (path : string) (tr : trace) :
  under mp path = true -> (index < length batch)%nat ->
  step (batch, index) path tr =
    let batch' := <[index := strip mp path]> batch in
    if (cap <=? S index)%nat then
      match send batch' (S index) threads background tr with
      | (Ret _, tr') => (Ret (batch', O), tr' ++ [EvIncrBy (S index)])
      | (Fatal f, tr') => (Fatal f, tr')
      | (Panic, tr') => (Panic, tr')
      | (OutOfFuel, tr') => (OutOfFuel, tr')
      end
    else (Ret (batch', S index), tr).
Proof.
  intros Hu Hi. unfold batch_step. unfold under in Hu. rewrite Hu.
  rewrite (slice_from_under path Hu). cbn [or_panic].
  rewrite run_bind, run_ret. unfold store.
  apply Nat.ltb_lt in Hi. rewrite Hi. cbn [or_panic].
  rewrite run_bind, run_ret. cbv zeta.
  destruct (cap <=? S index)%nat; [|reflexivity].
  rewrite run_bind.
  destruct (send _ _ _ _ tr) as [[[]|f| |] tr']; reflexivity.
Qed.

Lemma step_outside (st : list string * nat) (path : string) (tr : trace) :
  under mp path = false ->
  step st path tr = (Ret st, tr ++ [EvWarn path mp]).
Proof.
  intros Hu. unfold batch_step. destruct st as [batch index].
  unfold under in Hu. rewrite Hu. reflexivity.
Qed.

Lemma stripped_cons_under (path : string) (paths : list string) :
  under mp path = true -> stripped mp (path :: paths) = strip mp path :: stripped mp paths.
Proof. intros H. unfold stripped. simpl. now rewrite H. Qed.

Lemma stripped_cons_outside (path : string) (paths : list string) :
  under mp path = false -> stripped mp (path :: paths) = stripped mp paths.
Proof. intros H. unfold stripped. simpl. now rewrite H. Qed.

Lemma skipped_cons_under (path : string) (paths : list string) :
  under mp path = true -> skipped mp (path :: paths) = skipped mp paths.
Proof. intros H. unfold skipped. simpl. now rewrite H. Qed.

Lemma skipped_cons_outside (path : string) (paths : list string) :
  under mp path = false -> skipped mp (path :: paths) = path :: skipped mp paths.
Proof. intros H. unfold skipped. simpl. now rewrite H. Qed.

Lemma take_S_store (batch : list string) (index : nat) (v : string) :
  (index < length batch)%nat ->
  take (S index) (<[index := v]> batch) = take index batch ++ [v].
Proof.
  intros Hi. rewrite (take_S_r _ _ v).
  - now rewrite take_insert_ge.
  - now apply list_lookup_insert_eq.
Qed.

Lemma for_range_cons {S A} (body : S -> A -> M S) (s : S) (x : A) (l : list A)
    (tr : trace) :
  for_range body s (x :: l) tr =
    match body s x tr with
    | (Ret s', tr') => for_range body s' l tr'
    | (Fatal f, tr') => (Fatal f, tr')
    | (Panic, tr') => (Panic, tr')
    | (OutOfFuel, tr') => (OutOfFuel, tr')
    end.
Proof. reflexivity. Qed.

Lemma loop_spec (paths : list string) :
  forall (batch : list string) (index : nat) (tr : trace),
  length batch = cap -> (index < cap)%nat ->
  exists sent : list (list string),
    writes (snd (for_range step (batch, index) paths tr)) = writes tr ++ map bf sent /\
    match fst (for_range step (batch, index) paths tr) with
    | Ret (batch', index') =>
        length batch' = cap /\ (index' < cap)%nat /\
        chunks cap (take index batch ++ stripped mp paths)
          = sent ++ chunks cap (take index' batch') /\
        warnings (snd (for_range step (batch, index) paths tr))
          = warnings tr ++ skipped mp paths /\
        warmed (snd (for_range step (batch, index) paths tr))
          = (warmed tr + length (concat sent))%nat
    | Fatal f =>
        send_failed meta_FillCache cf threads background f /\
        sent `prefix_of` chunks cap (take index batch ++ stripped mp paths)
    | _ => False
    end.
Proof.
  induction paths as [|p rest IH]; intros batch index tr Hlen Hidx.
  { exists []. cbn [for_range]. rewrite run_ret. cbn [fst snd map concat length].
    rewrite !app_nil_r, Nat.add_0_r. repeat split; done. }
  rewrite for_range_cons.
  destruct (under mp p) eqn:Hu.
  2:{ (* outside the mount point *)
    rewrite (step_outside _ _ _ Hu).
    destruct (IH batch index (tr ++ [EvWarn p mp]) Hlen Hidx) as (sent & Hw & Hpost).
    exists sent. rewrite Hw, writes_app. cbn [writes]. rewrite app_nil_r.
    split; [reflexivity|].
    rewrite (stripped_cons_outside _ _ Hu), (skipped_cons_outside _ _ Hu).
    destruct (fst (for_range _ _ rest _)) as [[batch' index']|f| |]; try done.
    destruct Hpost as (? & ? & ? & Hwarn & Hwarmed).
    rewrite Hwarn, Hwarmed, warnings_app, warmed_app. cbn [warnings warmed].
    rewrite <- app_assoc, Nat.add_0_r. done. }
  (* under the mount point *)
  rewrite step_under by (done || lia). cbv zeta.
  rewrite (stripped_cons_under _ _ Hu), (skipped_cons_under _ _ Hu).
  set (v := strip mp p). set (batch1 := <[index := v]> batch).
  assert (Hlen1 : length batch1 = cap) by (subst batch1; now rewrite length_insert).
  assert (Hcur : take (S index) batch1 = take index batch ++ [v])
    by (apply take_S_store; lia).
  assert (Happ : take index batch ++ v :: stripped mp rest
                 = take (S index) batch1 ++ stripped mp rest)
    by (rewrite Hcur, <- app_assoc; reflexivity).
  destruct (cap <=? S index)%nat eqn:Hflush.
  2:{ (* the batch is not full yet *)
    apply Nat.leb_gt in Hflush.
    destruct (IH batch1 (S index) tr Hlen1 Hflush) as (sent & Hw & Hpost).
    exists sent. split; [exact Hw|]. now rewrite Happ. }
  (* the batch is full: flush *)
  apply Nat.leb_le in Hflush.
  assert (Hfull : length (take (S index) batch1) = cap)
    by (rewrite length_take; lia).
  destruct (sendCommand_effects batch1 (S index) tr ltac:(lia))
    as (Hw1 & Hwarn1 & Hwarmed1 & Hres).
  cbv zeta in Hw1, Hwarn1, Hwarmed1, Hres.
  rewrite Happ, (chunks_full cap cap_pos _ _ Hfull).
  destruct (send batch1 (S index) threads background tr) as [res tr1] eqn:Esend.
  cbn [fst snd] in Hw1, Hwarn1, Hwarmed1, Hres.
  destruct Hres as [-> | (f & -> & Hf)].
  - destruct (IH batch1 O (tr1 ++ [EvIncrBy (S index)]) Hlen1 cap_pos)
      as (sent & Hw & Hpost).
    exists (take (S index) batch1 :: sent).
    rewrite Hw, writes_app, Hw1. cbn [writes map]. rewrite app_nil_r, <- app_assoc.
    split; [reflexivity|].
    destruct (fst (for_range _ _ rest _)) as [[batch' index']|f| |]; try done.
    + destruct Hpost as (? & ? & Hch & Hwarn & Hwarmed).
      change (take 0 batch1 ++ stripped mp rest) with (stripped mp rest) in Hch.
      rewrite Hwarn, Hwarmed, warnings_app, warmed_app, Hwarn1, Hwarmed1, Hch.
      cbn [warnings warmed concat]. rewrite length_app, Hfull, app_nil_r.
      repeat split; try done. lia.
    + destruct Hpost as (? & Hpre). split; [done|].
      change (take 0 batch1 ++ stripped mp rest) with (stripped mp rest) in Hpre.
      now apply prefix_cons.
  - exists [take (S index) batch1]. cbn [fst snd map]. split; [exact Hw1|].
    split.
    + exists batch1, (S index), tr. split; [lia|]. now rewrite Esend.
    + apply prefix_cons, prefix_nil.
Qed.

Lemma send_batches_run (paths : list string) (tr : trace) :
  send_batches meta_FillCache cap cf threads background mp paths tr =
    match for_range step (replicate cap "", O) paths
            (tr ++ [EvAddCountBar (Z.of_nat (length paths))]) with
    | (Ret (batch, index), tr') =>
        if (0 <? index)%nat then
          match send batch index threads background tr' with
          | (Ret _, tr'') => (Ret tt, tr'' ++ [EvIncrBy index])
          | (Fatal f, tr'') => (Fatal f, tr'')
          | (Panic, tr'') => (Panic, tr'')
          | (OutOfFuel, tr'') => (OutOfFuel, tr'')
          end
        else (Ret tt, tr')
    | (Fatal f, tr') => (Fatal f, tr')
    | (Panic, tr') => (Panic, tr')
    | (OutOfFuel, tr') => (OutOfFuel, tr')
    end.
Proof.
  unfold send_batches. rewrite run_emit_then, run_bind.
  destruct (for_range _ _ _ _) as [[[batch index]|f| |] tr']; try reflexivity.
  destruct (0 <? index)%nat; [|reflexivity].
  rewrite run_bind.
  destruct (send _ _ _ _ tr') as [[[]|f| |] tr'']; reflexivity.
Qed.

Lemma send_batches_spec (paths : list string) (tr : trace) :
  exists sent : list (list string),
    writes (snd (send_batches meta_FillCache cap cf threads background mp paths tr))
      = writes tr ++ map bf sent /\
    sent `prefix_of` chunks cap (stripped mp paths) /\
    match fst (send_batches meta_FillCache cap cf threads background mp paths tr) with
    | Ret _ =>
        sent = chunks cap (stripped mp paths) /\
        warnings (snd (send_batches meta_FillCache cap cf threads background mp paths tr))
          = warnings tr ++ skipped mp paths /\
        warmed (snd (send_batches meta_FillCache cap cf threads background mp paths tr))
          = (warmed tr + length (stripped mp paths))%nat
    | Fatal f => send_failed meta_FillCache cf threads background f
    | _ => False
    end.
Proof.
  rewrite send_batches_run.
  set (tr0 := tr ++ [EvAddCountBar (Z.of_nat (length paths))]).
  assert (Hw0 : writes tr0 = writes tr)
    by (subst tr0; rewrite writes_app; apply app_nil_r).
  assert (Hwarn0 : warnings tr0 = warnings tr)
    by (subst tr0; rewrite warnings_app; apply app_nil_r).
  assert (Hwarmed0 : warmed tr0 = warmed tr)
    by (subst tr0; rewrite warmed_app; simpl; lia).
  destruct (loop_spec paths (replicate cap "") O tr0) as (sent & Hw & Hpost).
  { apply length_replicate. }
  { exact cap_pos. }
  change (take 0 (replicate cap "") ++ stripped mp paths)
    with (stripped mp paths) in Hpost.
  destruct (for_range _ _ _ _) as [[[batch index]|f| |] tr'];
    cbn [fst snd] in Hw, Hpost; try done.
  2:{ destruct Hpost as (Hf & Hpre). exists sent. cbn [fst snd].
      rewrite Hw, Hw0. done. }
  destruct Hpost as (Hlen & Hidx & Hch & Hwarn & Hwarmed).
  destruct (0 <? index)%nat eqn:Hpos.
  2:{ apply Nat.ltb_ge in Hpos. assert (index = O) as -> by lia.
      change (chunks cap (take 0 batch)) with (@nil (list string)) in Hch.
      rewrite app_nil_r in Hch. exists sent. cbn [fst snd]. subst sent.
      rewrite Hw, Hw0, Hwarn, Hwarn0, Hwarmed, Hwarmed0.
      rewrite (concat_chunks cap cap_pos). done. }
  apply Nat.ltb_lt in Hpos.
  assert (Hcur : length (take index batch) = index)
    by (rewrite length_take; lia).
  rewrite (chunks_short cap cap_pos (take index batch)) in Hch by lia.
  destruct (sendCommand_effects batch index tr' ltac:(lia))
    as (Hw1 & Hwarn1 & Hwarmed1 & Hres).
  cbv zeta in Hw1, Hwarn1, Hwarmed1, Hres.
  destruct (send batch index threads background tr') as [res tr''] eqn:Esend.
  cbn [fst snd] in Hw1, Hwarn1, Hwarmed1, Hres.
  exists (sent ++ [take index batch]).
  destruct Hres as [-> | (f & -> & Hf)]; cbn [fst snd].
  - rewrite writes_app, warnings_app, warmed_app, Hw1, Hwarn1, Hwarmed1.
    rewrite Hw, Hw0, Hwarn, Hwarn0, Hwarmed, Hwarmed0, Hch.
    cbn [writes warnings warmed]. rewrite !app_nil_r, map_app, <- app_assoc.
    repeat split; try done.
    rewrite <- (concat_chunks cap cap_pos (stripped mp paths)) at 1.
    rewrite Hch, concat_app, !length_app. cbn [concat]. rewrite app_nil_r. lia.
  - rewrite Hw1, Hw, Hw0, Hch, map_app, <- app_assoc.
    repeat split; try done.
    exists batch, index, tr'. split; [lia|]. now rewrite Esend.
Qed.

Lemma send_batches_accepted (paths : list string) (tr : trace) :
  accepts cf background ->
  fst (send_batches meta_FillCache cap cf threads background mp paths tr) = Ret tt.
Proof.
  intros Hacc. destruct (send_batches_spec paths tr) as (sent & _ & _ & Hpost).
  destruct (fst (send_batches _ _ _ _ _ _ _ _)) as [[]|f| |]; try done.
  destruct Hpost as (batch & count & tr0 & Hc & Hf).
  rewrite sendCommand_accepted in Hf by done. discriminate.
Qed.

End Batches.

(** ** Finding the mount point *)

Section Mount.

Variable env : Env.

Lemma candidate_S (start : string) (k : nat) :
  candidate start (S k) = candidate (filepath_Dir start) k.
Proof. unfold candidate. apply Nat.iter_succ_r. Qed.

Lemma queries_S (start : string) (n : nat) :
  queries start (S n) = EvGetFileInode start :: queries (filepath_Dir start) n.
Proof.
  unfold queries. cbn [seq map]. f_equal.
  rewrite <- seq_shift, map_map. apply map_ext. intros j.
  now rewrite candidate_S.
Qed.

Lemma climbs_S (start : string) (k : nat) :
  climbs env start (S k) ->
  start ≠ "/" /\
  (exists inode, utils_GetFileInode env start = inl inode /\ inode ≠ 1) /\
  climbs env (filepath_Dir start) k.
Proof.
  intros H. destruct (H O ltac:(lia)) as [H0 H1].
  split; [exact H0|]. split; [exact H1|].
  intros i Hi. rewrite <- !candidate_S. apply H. lia.
Qed.

Lemma mount_loop_step (fuel : nat) (mp : string) (inode : Z) (tr : trace) :
  mp ≠ "/" -> utils_GetFileInode env mp = inl inode -> inode ≠ 1 ->
  mount_loop (S fuel) env mp tr =
    mount_loop fuel env (filepath_Dir mp) (tr ++ [EvGetFileInode mp]).
Proof.
  intros Hmp Hino Hne. cbn [mount_loop].
  rewrite bool_decide_eq_true_2 by done.
  rewrite run_emit_then, Hino, bool_decide_eq_false_2 by done. reflexivity.
Qed.

Lemma mount_loop_found (k : nat) :
  forall (fuel : nat) (start : string) (tr : trace),
  climbs env start k -> candidate start k ≠ "/" ->
  utils_GetFileInode env (candidate start k) = inl 1 ->
  (k < fuel)%nat ->
  mount_loop fuel env start tr = (Ret (candidate start k), tr ++ queries start (S k)).
Proof.
  induction k as [|k IH]; intros fuel start tr Hcl Hne Hino Hfuel.
  - destruct fuel as [|fuel]; [lia|].
    change (candidate start 0) with start in *.
    cbn [mount_loop]. rewrite bool_decide_eq_true_2 by done.
    rewrite run_emit_then, Hino, bool_decide_eq_true_2 by done.
    rewrite queries_S. reflexivity.
  - destruct fuel as [|fuel]; [lia|].
    apply climbs_S in Hcl as (H0 & (inode & Hi & Hi1) & Hcl).
    rewrite (mount_loop_step _ _ _ _ H0 Hi Hi1).
    rewrite candidate_S in *. rewrite IH by (done || lia).
    rewrite (queries_S start), <- app_assoc. reflexivity.
Qed.

Lemma mount_loop_root (k : nat) :
  forall (fuel : nat) (start : string) (tr : trace),
  climbs env start k -> candidate start k = "/" ->
  (k <= fuel)%nat ->
  mount_loop fuel env start tr = (Ret "/", tr ++ queries start k).
Proof.
  induction k as [|k IH]; intros fuel start tr Hcl Hroot Hfuel.
  - change (candidate start 0) with start in Hroot. subst start.
    destruct fuel; cbn [mount_loop]; rewrite bool_decide_eq_false_2 by (intros H; now apply H);
      rewrite run_ret; unfold queries; cbn; now rewrite app_nil_r.
  - destruct fuel as [|fuel]; [lia|].
    apply climbs_S in Hcl as (H0 & (inode & Hi & Hi1) & Hcl).
    rewrite (mount_loop_step _ _ _ _ H0 Hi Hi1).
    rewrite candidate_S in *. rewrite IH by (done || lia).
    rewrite (queries_S start), <- app_assoc. reflexivity.
Qed.

Lemma find_mount_point_run (fuel : nat) (path0 first : string) (is_dir : bool)
    (tr : trace) :
  filepath_Abs env path0 = inl first ->
  os_Stat_IsDir env first = inl is_dir ->
  find_mount_point fuel env path0 tr =
    match mount_loop fuel env (if is_dir then first else filepath_Dir first)
            (tr ++ [EvAbs path0; EvStat first]) with
    | (Ret mp, tr') =>
        if bool_decide (mp = "/") then (Fatal (NotInsideJuiceFS first), tr')
        else (Ret mp, tr')
    | (Fatal f, tr') => (Fatal f, tr')
    | (Panic, tr') => (Panic, tr')
    | (OutOfFuel, tr') => (OutOfFuel, tr')
    end.
Proof.
  intros Habs Hstat. unfold find_mount_point.
  rewrite run_emit_then, Habs, run_emit_then, Hstat, run_bind, <- app_assoc.
  cbn [app].
  destruct (mount_loop _ _ _ _) as [[mp|f| |] tr']; try reflexivity.
  destruct (bool_decide (mp = "/")); reflexivity.
Qed.

End Mount.

(** ** Reading the paths *)

Lemma add_lines (env : Env) (lines paths : list string) :
  foldl (add_line env) paths lines = paths ++ file_paths env lines.
Proof.
  revert paths. induction lines as [|l lines IH]; intros paths.
  - unfold file_paths. simpl. now rewrite app_nil_r.
  - cbn [foldl]. rewrite IH. unfold add_line, file_paths. cbn [map List.filter].
    destruct (String.eqb_spec (strings_TrimSpace env l) "") as [E|E].
    + rewrite bool_decide_eq_false_2 by (intros H; now apply H). reflexivity.
    + rewrite bool_decide_eq_true_2 by done. cbn [negb].
      now rewrite <- app_assoc.
Qed.

Lemma read_paths_run (env : Env) (ctx : Context) (tr : trace) :
  read_paths env ctx tr =
    if bool_decide (ctx_file ctx ≠ "") then
      match os_Open env (ctx_file ctx) with
      | inr e => (Fatal (FailedToOpenFile (ctx_file ctx) e), tr ++ [EvOpen (ctx_file ctx)])
      | inl (lines, Some e) =>
          (Fatal (ReadingFileFailed (ctx_file ctx) e), tr ++ [EvOpen (ctx_file ctx)])
      | inl (lines, None) =>
          (Ret (ctx_args ctx ++ file_paths env lines), tr ++ [EvOpen (ctx_file ctx)])
      end
    else (Ret (ctx_args ctx), tr).
Proof.
  unfold read_paths. destruct (bool_decide (ctx_file ctx ≠ "")); [|reflexivity].
  rewrite run_emit_then.
  destruct (os_Open env (ctx_file ctx)) as [[lines [e|]]|e]; try reflexivity.
  now rewrite add_lines.
Qed.

Lemma file_paths_blank (env : Env) (lines : list string) :
  Forall (fun l => strings_TrimSpace env l = "") lines -> file_paths env lines = [].
Proof.
  unfold file_paths. induction 1 as [|l lines Hl _ IH]; [reflexivity|].
  cbn [map List.filter]. rewrite Hl. exact IH.
Qed.

Lemma batchMax_pos : (0 < batchMax)%nat.
Proof. unfold batchMax. lia. Qed.


(** ** The walk to the root ends

    [filepath.Abs] gives a rooted path, and [filepath.Dir] of a rooted path
    other than ["/"] is rooted and shorter: the loop needs no more steps
    than the path has bytes. *)

Lemma split_has_sep (c : ascii) (s : string) :
  has_byte c s = true ->
  exists h t, strings_Split1 s c = h :: t /\ t ≠ [].
Proof.
  induction s as [|a r IH]; [done|]. simpl.
  pose proof (split_nonempty c r) as Hne.
  destruct (Ascii.eqb a c) eqn:E.
  - intros _. exists "", (strings_Split1 r c). done.
  - simpl. intros H. destruct (IH H) as (h & t & -> & Ht).
    exists (String a h), t. done.
Qed.

Lemma split_upto_last_slash (p : string) :
  strings_Split1 (upto_last_slash p) slash
  = removelast (strings_Split1 p slash) ++ [""].
Proof.
  induction p as [|a r IH]; [reflexivity|].
  cbn [upto_last_slash]. destruct (has_byte slash r) eqn:Hs.
  - destruct (split_has_sep slash r Hs) as (h & t & Hr & Ht).
    cbn [strings_Split1]. rewrite IH, Hr.
    destruct t as [|t0 t]; [done|].
    destruct (Ascii.eqb a slash); reflexivity.
  - cbn [strings_Split1]. rewrite (split_no_sep slash r Hs).
    destruct (Ascii.eqb a slash) eqn:E.
    + cbn [strings_Split1]. rewrite E. reflexivity.
    + reflexivity.
Qed.

Lemma rooted_inv (p : string) :
  is_rooted p = true -> exists r, p = String slash r.
Proof.
  unfold is_rooted. destruct p as [|a r]; [done|].
  cbn [String.prefix]. destruct (ascii_dec "/" a) as [<-|]; [|done].
  intros _. now exists r.
Qed.

Lemma rooted_slash (r : string) : is_rooted (String slash r) = true.
Proof.
  unfold is_rooted. cbn [String.prefix].
  destruct (ascii_dec "/" slash); [now destruct r | done].
Qed.

Lemma rooted_upto_last_slash (p : string) :
  is_rooted p = true -> is_rooted (upto_last_slash p) = true.
Proof.
  intros H. destruct (rooted_inv p H) as (r & ->).
  cbn [upto_last_slash]. rewrite Ascii.eqb_refl.
  destruct (has_byte slash r); apply rooted_slash.
Qed.

Lemma length_append (a b : string) :
  String.length (a +:+ b) = (String.length a + String.length b)%nat.
Proof. induction a as [|x a IH]; simpl; [reflexivity | now rewrite IH]. Qed.

Lemma length_concat_slash (l : list string) :
  l ≠ [] -> (String.length (String.concat "/" l) + 1 = weight l)%nat.
Proof.
  induction l as [|e l IH]; [done|]. intros _.
  destruct l as [|e' l].
  - simpl. lia.
  - change (String.concat "/" (e :: e' :: l))
      with (e +:+ String slash (String.concat "/" (e' :: l))).
    rewrite length_append. cbn [String.length weight] in *.
    specialize (IH ltac:(done)). lia.
Qed.

Lemma length_as_weight (p : string) :
  (String.length p + 1 = weight (strings_Split1 p slash))%nat.
Proof.
  rewrite <- length_concat_slash by apply split_nonempty.
  change "/" with (String slash ""). now rewrite join_split.
Qed.

Lemma weight_app (l k : list string) : weight (l ++ k) = (weight l + weight k)%nat.
Proof.
  induction l as [|e l IH]; [reflexivity|].
  cbn [app weight] in *. lia.
Qed.

Lemma weight_removelast (l : list string) : (weight (removelast l) <= weight l)%nat.
Proof.
  induction l as [|e l IH]; [done|].
  destruct l as [|e' l]; [simpl; lia|].
  change (removelast (e :: e' :: l)) with (e :: removelast (e' :: l)).
  cbn [weight] in *. lia.
Qed.

Lemma weight_removelast_lt (l : list string) :
  l ≠ [] -> (weight (removelast l) < weight l)%nat.
Proof.
  induction l as [|e l IH]; [done|]. intros _.
  destruct l as [|e' l]; [simpl; lia|].
  change (removelast (e :: e' :: l)) with (e :: removelast (e' :: l)).
  specialize (IH ltac:(done)). cbn [weight] in *. lia.
Qed.

Lemma clean_step_weight (out : list string) (dotdot : nat) (e : string) :
  (weight (fst (clean_step true (out, dotdot) e)) <= weight out + weight [e])%nat.
Proof.
  unfold clean_step.
  destruct (String.eqb e "" || String.eqb e "."); [simpl; lia|].
  destruct (String.eqb e "..").
  - destruct (dotdot <? length out)%nat; cbn [fst].
    + pose proof (weight_removelast out). simpl. lia.
    + simpl. lia.
  - cbn [fst]. rewrite weight_app. lia.
Qed.

Lemma clean_fold_weight (elems out : list string) (dotdot : nat) :
  (weight (fst (foldl (clean_step true) (out, dotdot) elems))
   <= weight out + weight elems)%nat.
Proof.
  revert out dotdot. induction elems as [|e elems IH]; intros out dotdot.
  - simpl. lia.
  - cbn [foldl]. pose proof (clean_step_weight out dotdot e) as Hs.
    destruct (clean_step true (out, dotdot) e) as [out' dotdot'].
    specialize (IH out' dotdot'). cbn [fst weight] in *. lia.
Qed.

Lemma clean_fold_empty (elems : list string) (acc : list string * nat) :
  foldl (clean_step true) acc (elems ++ [""])
  = foldl (clean_step true) acc elems.
Proof.
  rewrite foldl_app. cbn [foldl].
  destruct (foldl (clean_step true) acc elems) as [out dotdot]. reflexivity.
Qed.

Lemma clean_fold_first_empty (elems : list string) :
  foldl (clean_step true) ([], O) ("" :: elems)
  = foldl (clean_step true) ([], O) elems.
Proof. reflexivity. Qed.

Lemma Dir_rooted (p : string) :
  is_rooted p = true -> is_rooted (filepath_Dir p) = true.
Proof.
  intros H. unfold filepath_Dir, filepath_Clean, clean_elems.
  rewrite (rooted_upto_last_slash p H).
  destruct (foldl _ _ _) as [out dotdot]. apply rooted_slash.
Qed.

Lemma Dir_shorter (p : string) :
  is_rooted p = true -> p ≠ "/" ->
  (String.length (filepath_Dir p) < String.length p)%nat.
Proof.
  intros H Hne. pose proof (length_as_weight p) as Hlen.
  unfold filepath_Dir, filepath_Clean, clean_elems.
  rewrite (rooted_upto_last_slash p H), split_upto_last_slash, clean_fold_empty.
  destruct (rooted_inv p H) as (r & ->).
  cbn [strings_Split1] in *. rewrite Ascii.eqb_refl in *.
  pose proof (split_nonempty slash r) as Hr.
  destruct (strings_Split1 r slash) as [|h t] eqn:E; [done|].
  change (removelast ("" :: h :: t)) with ("" :: removelast (h :: t)).
  rewrite clean_fold_first_empty.
  pose proof (clean_fold_weight (removelast (h :: t)) [] O) as Hw.
  pose proof (weight_removelast_lt (h :: t) ltac:(done)) as Hlt.
  destruct (foldl _ _ _) as [out dotdot]. cbn [fst] in Hw.
  change (String.length ("/" +:+ String.concat "/" out))
    with (S (String.length (String.concat "/" out))).
  destruct out as [|o out].
  - cbn. destruct r as [|x r]; [done|]. cbn. lia.
  - pose proof (length_concat_slash (o :: out) ltac:(done)).
    cbn [weight String.length] in *. lia.
Qed.

Lemma rooted_length (p : string) : is_rooted p = true -> (1 <= String.length p)%nat.
Proof. intros H. destruct (rooted_inv p H) as (r & ->). simpl. lia. Qed.

(** With as much fuel as the start has bytes, the loop ends: with a mount
    point, at ["/"] or on a failed lookup. *)
Lemma mount_loop_ends (env : Env) (fuel : nat) :
  forall (mp : string) (tr : trace),
  is_rooted mp = true -> (String.length mp <= fuel)%nat ->
  (exists mp' tr', mount_loop fuel env mp tr = (Ret mp', tr')) \/
  (exists e p tr', mount_loop fuel env mp tr = (Fatal (FailedToLookupInode p e), tr')).
Proof.
  induction fuel as [|fuel IH]; intros mp tr Hr Hlen.
  - apply rooted_length in Hr. lia.
  - cbn [mount_loop]. destruct (bool_decide (mp ≠ "/")) eqn:E.
    2:{ left. now exists mp, tr. }
    apply bool_decide_eq_true in E. rewrite run_emit_then.
    destruct (utils_GetFileInode env mp) as [inode|e].
    2:{ right. now exists e, mp, (tr ++ [EvGetFileInode mp]). }
    destruct (bool_decide (inode = 1)).
    { left. now exists mp, (tr ++ [EvGetFileInode mp]). }
    apply IH; [now apply Dir_rooted|].
    pose proof (Dir_shorter mp Hr E). lia.
Qed.

Lemma climbs_cons (env : Env) (start : string) (inode : Z) (k : nat) :
  start ≠ "/" -> utils_GetFileInode env start = inl inode -> inode ≠ 1 ->
  climbs env (filepath_Dir start) k -> climbs env start (S k).
Proof.
  intros Hne Hino H1 Hcl j Hj. destruct j as [|j].
  - split; [exact Hne|]. exists inode. split; [exact Hino | exact H1].
  - rewrite candidate_S. apply Hcl. lia.
Qed.

(** What the loop returns is the first candidate that is ["/"] or has
    inode 1. *)
Lemma mount_loop_returns (env : Env) (fuel : nat) :
  forall (start : string) (tr : trace) (mp : string) (tr' : trace),
  mount_loop fuel env start tr = (Ret mp, tr') ->
  exists k, climbs env start k /\ mp = candidate start k /\
    ((mp = "/" /\ tr' = tr ++ queries start k) \/
     (mp ≠ "/" /\ utils_GetFileInode env mp = inl 1 /\
      tr' = tr ++ queries start (S k))).
Proof.
  induction fuel as [|fuel IH]; intros start tr mp tr' Hrun.
  - cbn [mount_loop] in Hrun. destruct (bool_decide (start ≠ "/")) eqn:E; [done|].
    apply bool_decide_eq_false in E.
    assert (start = "/") as -> by (destruct (decide (start = "/")); [done | now exfalso; apply E]).
    inversion Hrun; subst. exists O. split; [intros j Hj; lia|].
    split; [reflexivity|]. left. split; [reflexivity|].
    unfold queries. simpl. now rewrite app_nil_r.
  - cbn [mount_loop] in Hrun. destruct (bool_decide (start ≠ "/")) eqn:E.
    2:{ apply bool_decide_eq_false in E.
        assert (start = "/") as -> by (destruct (decide (start = "/")); [done | now exfalso; apply E]).
        inversion Hrun; subst. exists O. split; [intros j Hj; lia|].
        split; [reflexivity|]. left. split; [reflexivity|].
        unfold queries. simpl. now rewrite app_nil_r. }
    apply bool_decide_eq_true in E. rewrite run_emit_then in Hrun.
    destruct (utils_GetFileInode env start) as [inode|e] eqn:Hino; [|done].
    destruct (bool_decide (inode = 1)) eqn:E1.
    + apply bool_decide_eq_true in E1. subst inode. inversion Hrun; subst.
      exists O. split; [intros j Hj; lia|]. split; [reflexivity|].
      right. split; [exact E|]. split; [exact Hino|].
      now rewrite queries_S.
    + apply bool_decide_eq_false in E1.
      destruct (IH _ _ _ _ Hrun) as (k & Hcl & Hmp & Hcase).
      exists (S k). split; [now apply (climbs_cons env start inode)|].
      rewrite candidate_S. split; [exact Hmp|].
      rewrite !(queries_S start), <- !app_assoc in *. exact Hcase.
Qed.

Lemma Dir_length (p : string) :
  is_rooted p = true -> (String.length (filepath_Dir p) <= String.length p)%nat.
Proof.
  intros H. destruct (decide (p = "/")) as [->|Hne]; [reflexivity|].
  pose proof (Dir_shorter p H Hne). lia.
Qed.

Lemma find_mount_point_ends (env : Env) (fuel : nat) (path0 : string) (tr : trace) :
  (forall first, filepath_Abs env path0 = inl first ->
                is_rooted first = true /\ (String.length first <= fuel)%nat) ->
  (exists mp tr', find_mount_point fuel env path0 tr = (Ret mp, tr')) \/
  (exists f tr', find_mount_point fuel env path0 tr = (Fatal f, tr')).
Proof.
  intros Habs. unfold find_mount_point. rewrite run_emit_then.
  destruct (filepath_Abs env path0) as [first|e] eqn:E; [|right; eauto].
  destruct (Habs first eq_refl) as [Hr Hlen].
  rewrite run_emit_then.
  destruct (os_Stat_IsDir env first) as [is_dir|e]; [|right; eauto].
  rewrite run_bind.
  destruct (mount_loop_ends env fuel (if is_dir then first else filepath_Dir first)
              ((tr ++ [EvAbs path0]) ++ [EvStat first]))
    as [(mp & tr' & ->) | (e & p & tr' & ->)].
  - destruct is_dir; [exact Hr | now apply Dir_rooted].
  - destruct is_dir; [exact Hlen|]. pose proof (Dir_length first Hr). lia.
  - destruct (bool_decide (mp = "/")); [right | left]; eauto.
  - right. eauto.
Qed.

Section Total.

Variable meta_FillCache : Z.

Lemma send_batches_ends (cf : File) (threads : Z) (background : bool)
    (mp : string) (paths : list string) (tr : trace) :
  (exists tr', send_batches meta_FillCache batchMax cf threads background mp paths tr
               = (Ret tt, tr')) \/
  (exists f tr', send_batches meta_FillCache batchMax cf threads background mp paths tr
                 = (Fatal f, tr')).
Proof.
  destruct (send_batches_spec meta_FillCache batchMax batchMax_pos cf threads
              background mp paths tr) as (sent & _ & _ & Hpost).
  destruct (send_batches _ _ _ _ _ _ _ _) as [[[]|f| |] tr']; cbn [fst] in Hpost;
    try done; [left | right]; eauto.
Qed.

Lemma warmup_tail_ends (env : Env) (ctx : Context) (fuel : nat)
    (path0 : string) (rest : list string) (tr : trace) :
  (forall first, filepath_Abs env path0 = inl first ->
                is_rooted first = true /\ (String.length first <= fuel)%nat) ->
  let tail :=
    (mp ← find_mount_point fuel env path0;
     emit (EvOpenController mp);;
     match openController env mp with
     | None => fatalf (FailedToOpenControl mp)
     | Some controller =>
         send_batches meta_FillCache batchMax controller (ctx_threads ctx)
           (ctx_background ctx) mp (path0 :: rest);;
         emit EvDone;;
         emit EvCloseController;;
         close_file ctx
     end) : M unit in
  (exists tr', tail tr = (Ret tt, tr')) \/ (exists f tr', tail tr = (Fatal f, tr')).
Proof.
  intros Habs tail. subst tail. rewrite run_bind.
  destruct (find_mount_point_ends env fuel path0 tr Habs)
    as [(mp & tr1 & ->) | (f & tr1 & ->)]; [|right; eauto].
  rewrite run_emit_then.
  destruct (openController env mp) as [cf|]; [|right; eauto].
  rewrite run_bind.
  destruct (send_batches_ends cf (ctx_threads ctx) (ctx_background ctx) mp
              (path0 :: rest) (tr1 ++ [EvOpenController mp]))
    as [(tr2 & ->) | (f & tr2 & ->)]; [|right; eauto].
  left. rewrite !run_emit_then. unfold close_file.
  destruct (bool_decide (ctx_file ctx ≠ "")); eexists; reflexivity.
Qed.

(** When [filepath.Abs] gives rooted paths and the fuel is the length of
    the first one, [warmup] returns or ends in a call of [logger.Fatalf]:
    it neither runs out of fuel nor indexes out of range. *)
Lemma warmup_ends (env : Env) (ctx : Context) (tr : trace) (fuel : nat) :
  (forall path0 rest tr1 first,
     read_paths env ctx tr = (Ret (path0 :: rest), tr1) ->
     filepath_Abs env path0 = inl first ->
     is_rooted first = true /\ (String.length first <= fuel)%nat) ->
  (exists tr', warmup meta_FillCache fuel env ctx tr = (Ret tt, tr')) \/
  (exists f tr', warmup meta_FillCache fuel env ctx tr = (Fatal f, tr')).
Proof.
  intros Habs. unfold warmup. rewrite run_bind.
  destruct (read_paths env ctx tr) as [[[|path0 rest]|f| |] tr1] eqn:Eread.
  - left. unfold close_file. rewrite run_emit_then.
    destruct (bool_decide (ctx_file ctx ≠ "")); eexists; reflexivity.
  - apply (warmup_tail_ends env ctx fuel path0 rest tr1).
    intros first. now apply (Habs path0 rest tr1).
  - right. eauto.
  - rewrite read_paths_run in Eread.
    destruct (bool_decide (ctx_file ctx ≠ "")); [|done].
    now destruct (os_Open env (ctx_file ctx)) as [[lines [e|]]|e].
  - rewrite read_paths_run in Eread.
    destruct (bool_decide (ctx_file ctx ≠ "")); [|done].
    now destruct (os_Open env (ctx_file ctx)) as [[lines [e|]]|e].
Qed.

End Total.

(** * The properties of the specification *)

Section Properties.

Variable meta_FillCache : Z.

(** C1, as amended.  For a batch whose path block is shorter than
    [2^32 - 7] bytes, [sendCommand] writes one frame: the 4-byte command
    code [meta.FillCache], the 4-byte payload length [4 + 3 + len(block)],
    the 4-byte path-block length [len(block)], the bytes of the entries
    joined by newlines, the 2-byte thread count and the 1-byte background
    flag (1 in background, else 0), and the receiver reads these fields
    back.  Splitting the block on the newline gives the batch back when the
    batch is not empty and no entry contains a newline. *)
Theorem C1_frame_layout (cf : File) (batch : list string) (count : nat)
    (threads : Z) (background : bool) (tr : trace) :
  0 <= meta_FillCache < 2 ^ 32 ->
  (count <= length batch)%nat ->
  len (strings_Join (take count batch) nl) + 7 < 2 ^ 32 ->
  let block := strings_Join (take count batch) nl in
  let fr := frame meta_FillCache block threads background in
  writes (snd (sendCommand meta_FillCache cf batch count threads background tr))
    = writes tr ++ [fr] /\
  fr = le_bytes 4 meta_FillCache
       ++ le_bytes 4 (4 + 3 + len block)
       ++ le_bytes 4 (len block)
       ++ bytes_of block
       ++ le_bytes 2 (threads mod 2 ^ 16)
       ++ le_bytes 1 (if background then 1 else 0) /\
  parse_frame fr =
    Some {| req_command := meta_FillCache;
            req_size := 4 + 3 + len block;
            req_block_size := len block;
            req_block := block;
            req_threads := threads mod 2 ^ 16;
            req_background := if background then 1 else 0 |} /\
  ((0 < count)%nat ->
   Forall (fun p => has_byte newline p = false) (take count batch) ->
   block_entries block = take count batch).
Proof.
  intros HF Hc Hlen block fr. pose proof (len_nonneg block) as Hp.
  split; [|split; [|split]].
  - destruct (sendCommand_effects meta_FillCache cf threads background batch count tr Hc)
      as (Hw & _). exact Hw.
  - subst fr. rewrite frame_fields.
    rewrite (uint32_small (len block)) by (subst block; lia).
    rewrite (uint32_small (4 + 3 + len block)) by (subst block; lia).
    rewrite (uint32_small meta_FillCache) by lia. reflexivity.
  - apply parse_frame_frame; [exact HF | exact Hlen].
  - intros Hpos Hnl. apply split_join; [|exact Hnl].
    destruct batch as [|p batch]; [simpl in Hc; lia|].
    destruct count; [lia | done].
Qed.

Lemma stripped_all_under (mp : string) (paths : list string) :
  Forall (fun p => under mp p = true) paths ->
  stripped mp paths = map (strip mp) paths /\ skipped mp paths = [].
Proof.
  unfold stripped, skipped. induction 1 as [|p paths Hp _ [IH1 IH2]]; [done|].
  cbn [List.filter map]. rewrite Hp. cbn [negb map]. now rewrite IH1, IH2.
Qed.

(** C2.  When every path is under the mount point, the frames written are
    those of the consecutive chunks of [batchMax] stripped paths, in order:
    all of them when the run returns, the first ones when the control file
    fails, which is the only way the loop stops early.  The chunks are
    never empty, none has more than [batchMax] entries, every chunk before
    the last has exactly [batchMax], and together they are the stripped
    input list. *)
Theorem C2_batching_partitions (cf : File) (threads : Z) (background : bool)
    (mp : string) (paths : list string) (tr : trace) :
  Forall (fun p => under mp p = true) paths ->
  let r := send_batches meta_FillCache batchMax cf threads background mp paths tr in
  let all := chunks batchMax (map (strip mp) paths) in
  (exists sent,
     writes (snd r) = writes tr ++ map (batch_frame meta_FillCache threads background) sent /\
     sent `prefix_of` all /\
     (fst r = Ret tt -> sent = all)) /\
  (fst r = Ret tt \/ exists f, fst r = Fatal f /\ channel_failure f) /\
  (accepts cf background -> fst r = Ret tt) /\
  (fst r = Ret tt -> warmed (snd r) = (warmed tr + length paths)%nat) /\
  concat all = map (strip mp) paths /\
  Forall (fun b => (0 < length b <= batchMax)%nat) all /\
  (forall i b, all !! i = Some b -> (S i < length all)%nat -> length b = batchMax).
Proof.
  intros Hall r all. subst r all.
  destruct (stripped_all_under mp paths Hall) as [Hst Hsk].
  destruct (send_batches_spec meta_FillCache batchMax batchMax_pos cf threads
              background mp paths tr) as (sent & Hw & Hpre & Hpost).
  rewrite Hst in *.
  split; [|split; [|split; [|split; [|split; [|split]]]]].
  - exists sent. split; [exact Hw|]. split; [exact Hpre|].
    intros Hret. rewrite Hret in Hpost. apply Hpost.
  - destruct (fst (send_batches _ _ _ _ _ _ _ _)) as [[]|f| |]; try done.
    + now left.
    + right. exists f. split; [reflexivity|].
      eapply send_failed_channel; eassumption.
  - intros Hacc. apply send_batches_accepted; [apply batchMax_pos | exact Hacc].
  - intros Hret. rewrite Hret in Hpost. destruct Hpost as (_ & _ & Hwarmed).
    rewrite Hwarmed, length_map. reflexivity.
  - apply concat_chunks, batchMax_pos.
  - apply (chunks_sizes batchMax batchMax_pos (map (strip mp) paths)).
  - intros i b. apply (chunks_inner_full batchMax batchMax_pos).
Qed.

Lemma find_mount_point_walk (env : Env) (fuel : nat) (tr : trace)
    (path0 first : string) (is_dir : bool) (k : nat) :
  filepath_Abs env path0 = inl first ->
  os_Stat_IsDir env first = inl is_dir ->
  let start := if is_dir then first else filepath_Dir first in
  climbs env start k ->
  (candidate start k ≠ "/" ->
   utils_GetFileInode env (candidate start k) = inl 1 ->
   (k < fuel)%nat ->
   find_mount_point fuel env path0 tr
     = (Ret (candidate start k),
        tr ++ [EvAbs path0; EvStat first] ++ queries start (S k))) /\
  (candidate start k = "/" ->
   (k <= fuel)%nat ->
   find_mount_point fuel env path0 tr
     = (Fatal (NotInsideJuiceFS first),
        tr ++ [EvAbs path0; EvStat first] ++ queries start k)).
Proof.
  intros Habs Hstat start Hcl. split.
  - intros Hne Hino Hfuel.
    rewrite (find_mount_point_run env fuel path0 first is_dir tr Habs Hstat).
    fold start. rewrite (mount_loop_found env k) by done.
    rewrite bool_decide_eq_false_2 by done. now rewrite <- app_assoc.
  - intros Hroot Hfuel.
    rewrite (find_mount_point_run env fuel path0 first is_dir tr Habs Hstat).
    fold start. rewrite (mount_loop_root env k) by done.
    rewrite bool_decide_eq_true_2 by done. now rewrite <- app_assoc.
Qed.

Lemma find_mount_point_returns (env : Env) (fuel : nat) (tr : trace)
    (path0 mp : string) (tr' : trace) :
  find_mount_point fuel env path0 tr = (Ret mp, tr') ->
  exists first is_dir k,
    filepath_Abs env path0 = inl first /\
    os_Stat_IsDir env first = inl is_dir /\
    climbs env (if is_dir then first else filepath_Dir first) k /\
    mp = candidate (if is_dir then first else filepath_Dir first) k /\
    mp ≠ "/" /\
    utils_GetFileInode env mp = inl 1.
Proof.
  intros Hrun.
  destruct (filepath_Abs env path0) as [first|e] eqn:Habs.
  2:{ unfold find_mount_point in Hrun. rewrite run_emit_then, Habs in Hrun. done. }
  destruct (os_Stat_IsDir env first) as [is_dir|e] eqn:Hstat.
  2:{ unfold find_mount_point in Hrun.
      rewrite run_emit_then, Habs, run_emit_then, Hstat in Hrun. done. }
  rewrite (find_mount_point_run env fuel path0 first is_dir tr Habs Hstat) in Hrun.
  destruct (mount_loop _ _ _ _) as [[mp0|f| |] tr0] eqn:Hloop; try done.
  destruct (bool_decide (mp0 = "/")) eqn:E; [done|].
  apply bool_decide_eq_false in E. inversion Hrun; subst.
  destruct (mount_loop_returns env fuel _ _ _ _ Hloop) as (k & Hcl & Hmp & Hcase).
  exists first, is_dir, k.
  destruct Hcase as [[Hroot _] | (_ & Hino & _)]; [done|].
  split; [reflexivity|]. split; [exact Hstat|].
  split; [exact Hcl|]. split; [exact Hmp|]. split; [exact E | exact Hino].
Qed.

(** C3.  The walk starts at the absolute path when it is a directory and
    at its parent otherwise, asks for the inode of one candidate after the
    other and returns the first one whose inode is 1; when it comes to
    ["/"] first, the run ends with "not inside JuiceFS".  What it returns
    is always such a candidate, and from a rooted path it ends.  From
    [/a/b/c/file.txt], with inode 1 at [/a/b] and another at [/a/b/c], the
    mount point is [/a/b]. *)
Theorem C3_mount_resolution (env : Env) (fuel : nat) (tr : trace) :
  (forall path0 first is_dir k,
     filepath_Abs env path0 = inl first ->
     os_Stat_IsDir env first = inl is_dir ->
     let start := if is_dir then first else filepath_Dir first in
     climbs env start k ->
     (candidate start k ≠ "/" ->
      utils_GetFileInode env (candidate start k) = inl 1 ->
      (k < fuel)%nat ->
      find_mount_point fuel env path0 tr
        = (Ret (candidate start k),
           tr ++ [EvAbs path0; EvStat first] ++ queries start (S k))) /\
     (candidate start k = "/" ->
      (k <= fuel)%nat ->
      find_mount_point fuel env path0 tr
        = (Fatal (NotInsideJuiceFS first),
           tr ++ [EvAbs path0; EvStat first] ++ queries start k))) /\
  (forall path0 mp tr',
     find_mount_point fuel env path0 tr = (Ret mp, tr') ->
     exists first is_dir k,
       filepath_Abs env path0 = inl first /\
       os_Stat_IsDir env first = inl is_dir /\
       climbs env (if is_dir then first else filepath_Dir first) k /\
       mp = candidate (if is_dir then first else filepath_Dir first) k /\
       mp ≠ "/" /\
       utils_GetFileInode env mp = inl 1) /\
  (forall path0 first,
     filepath_Abs env path0 = inl first ->
     is_rooted first = true ->
     (String.length first <= fuel)%nat ->
     (exists mp tr', find_mount_point fuel env path0 tr = (Ret mp, tr')) \/
     (exists f tr', find_mount_point fuel env path0 tr = (Fatal f, tr'))) /\
  (forall inode,
     filepath_Abs env "/a/b/c/file.txt" = inl "/a/b/c/file.txt" ->
     os_Stat_IsDir env "/a/b/c/file.txt" = inl false ->
     utils_GetFileInode env "/a/b/c" = inl inode -> inode ≠ 1 ->
     utils_GetFileInode env "/a/b" = inl 1 ->
     (2 <= fuel)%nat ->
     fst (find_mount_point fuel env "/a/b/c/file.txt" tr) = Ret "/a/b").
Proof.
  split; [intros; now apply find_mount_point_walk|].
  split; [intros path0 mp tr'; apply find_mount_point_returns|].
  split.
  { intros path0 first Habs Hr Hlen. apply find_mount_point_ends.
    intros first' Habs'. rewrite Habs in Habs'. inversion Habs'; subst. done. }
  intros inode Habs Hstat Hc Hne Hb Hfuel.
  destruct (find_mount_point_walk env fuel tr "/a/b/c/file.txt" "/a/b/c/file.txt"
              false 1%nat Habs Hstat)
    as [Hfound _].
  - intros j Hj. assert (j = O) as -> by lia. split; [done|].
    exists inode. split; [exact Hc | exact Hne].
  - rewrite Hfound; [reflexivity | done | exact Hb | lia].
Qed.

Lemma elem_of_stripped (mp e : string) (paths : list string) :
  e ∈ stripped mp paths ->
  exists p, p ∈ paths /\ strings_HasPrefix p mp = true /\ p = mp +:+ e.
Proof.
  unfold stripped. intros H. apply list_elem_of_In, in_map_iff in H.
  destruct H as (p & <- & Hp). apply filter_In in Hp as [Hin Hu].
  exists p. split; [now apply list_elem_of_In|]. split; [exact Hu|].
  now apply under_strip.
Qed.

(** C4.  Not every entry sent comes from a path under the mount point, and
    not every path outside it is skipped.  The test of the loop is
    [strings.HasPrefix path mp], a test on the characters, while the
    warning of the other branch reads "Path ... is not under mount point
    ...": a path in a directory next to the mount point, whose name begins
    like the mount point's, passes the test.  In
    [juicefs warmup /mnt/jfs/a /mnt/jfs2/x] the mount point found is
    [/mnt/jfs]; [/mnt/jfs2/x] is in no JuiceFS at all (looking for a mount
    point from it ends in "is not inside JuiceFS"), and yet the one frame
    written holds the entries ["/a"] and ["2/x"], no warning is logged and
    the bar counts two paths. *)
Theorem C4_sibling_directory_is_encoded :
  fst (find_mount_point 16 example_env "/mnt/jfs/a" []) = Ret "/mnt/jfs" /\
  fst (find_mount_point 16 example_env "/mnt/jfs2/x" [])
    = Fatal (NotInsideJuiceFS "/mnt/jfs2/x") /\
  strings_HasPrefix "/mnt/jfs2/x" "/mnt/jfs" = true /\
  warmup FillCache_example 16 example_env sibling_ctx []
    = (Ret tt,
       [EvAbs "/mnt/jfs/a"; EvStat "/mnt/jfs/a"; EvGetFileInode "/mnt/jfs";
        EvOpenController "/mnt/jfs"; EvAddCountBar 2;
        EvWrite (batch_frame FillCache_example 50 false ["/a"; "2/x"]);
        EvRead; EvIncrBy 2; EvDone; EvCloseController]) /\
  warnings (snd (warmup FillCache_example 16 example_env sibling_ctx [])) = [] /\
  option_map req_block
    (parse_frame (batch_frame FillCache_example 50 false ["/a"; "2/x"]))
    = Some (strings_Join ["/a"; "2/x"] nl) /\
  strings_Split1 (strings_Join ["/a"; "2/x"] nl) newline = ["/a"; "2/x"].
Proof.
  split; [vm_compute; reflexivity|].
  split; [vm_compute; reflexivity|].
  split; [reflexivity|].
  split; [vm_compute; reflexivity|].
  split; [vm_compute; reflexivity|].
  split; vm_compute; reflexivity.
Qed.

(** C5.  Not in background, once the frame is written [sendCommand] reads
    the control file exactly once: a zero byte is success, another byte is
    the fatal "Warm up failed" carrying that byte, and a read that fails or
    does not give one byte is the fatal "Read message". *)
Theorem C5_status_byte (cf : File) (batch : list string) (count : nat)
    (threads : Z) (tr : trace) :
  (count <= length batch)%nat ->
  file_Write cf (length (writes tr))
    (frame meta_FillCache (strings_Join (take count batch) nl) threads false) = None ->
  let fr := frame meta_FillCache (strings_Join (take count batch) nl) threads false in
  let r := sendCommand meta_FillCache cf batch count threads false tr in
  snd r = tr ++ [EvWrite fr; EvRead] /\
  reads (snd r) = S (reads tr) /\
  forall n err errs0, file_Read cf (reads tr) = (n, err, errs0) ->
    (err = None -> n = 1 -> Z_of_byte errs0 = 0 -> fst r = Ret tt) /\
    (err = None -> n = 1 -> Z_of_byte errs0 ≠ 0 -> fst r = Fatal (WarmUpFailed errs0)) /\
    (err ≠ None \/ n ≠ 1 -> fst r = Fatal (ReadMessage n err)).
Proof.
  intros Hc Hw fr r. subst r. rewrite sendCommand_run by done. cbv zeta.
  fold fr. fold fr in Hw. rewrite Hw. cbn [fst snd].
  split; [reflexivity|]. split.
  { rewrite reads_app. simpl. lia. }
  intros n err errs0 Hr. rewrite Hr. unfold status_outcome.
  split; [|split].
  - intros -> -> Hz. rewrite bool_decide_eq_false_2 by (intros H; now apply H).
    rewrite bool_decide_eq_false_2 by (intros H; now apply H).
    cbn [orb]. rewrite bool_decide_eq_false_2 by (intros H; now apply H). reflexivity.
  - intros -> -> Hz. rewrite bool_decide_eq_false_2 by (intros H; now apply H).
    rewrite bool_decide_eq_false_2 by (intros H; now apply H).
    cbn [orb]. rewrite bool_decide_eq_true_2 by done. reflexivity.
  - intros [He | Hn].
    + rewrite (bool_decide_eq_true_2 (err ≠ None)) by done. reflexivity.
    + rewrite (bool_decide_eq_true_2 (n ≠ 1)) by done. now rewrite orb_true_r.
Qed.

(** C6.  In background, once the frame is written [sendCommand] logs and
    returns: it reads nothing from the control file, whatever a read would
    have answered. *)
Theorem C6_background_returns (cf : File) (batch : list string) (count : nat)
    (threads : Z) (tr : trace) :
  (count <= length batch)%nat ->
  file_Write cf (length (writes tr))
    (frame meta_FillCache (strings_Join (take count batch) nl) threads true) = None ->
  let fr := frame meta_FillCache (strings_Join (take count batch) nl) threads true in
  let r := sendCommand meta_FillCache cf batch count threads true tr in
  r = (Ret tt, tr ++ [EvWrite fr; EvInfo (WarmUpInBackground count)]) /\
  reads (snd r) = reads tr /\
  forall answers,
    sendCommand meta_FillCache
      {| file_Write := file_Write cf; file_Read := answers |}
      batch count threads true tr = r.
Proof.
  intros Hc Hw fr r. subst r. rewrite !sendCommand_run by done. cbv zeta.
  fold fr. fold fr in Hw. rewrite Hw. cbn [fst snd].
  split; [reflexivity|]. split.
  { rewrite reads_app. simpl. lia. }
  intros answers. rewrite sendCommand_run by done. cbv zeta. cbn [file_Write].
  fold fr. now rewrite Hw.
Qed.

(** C7, as amended.  With mount point [/mnt/jfs] the three paths give one
    frame, for the batch [["/x"; "/y"]]: what is left of a path after the
    mount point starts with the separator.  [/other/z] is warned about and
    the bar counts 2.  This holds for a batch array of 2 as for one of
    [batchMax]. *)
Theorem C7_example_run (cap : nat) (cf : File) (threads : Z) (background : bool)
    (tr : trace) :
  cap = 2%nat \/ cap = batchMax ->
  accepts cf background ->
  let r := send_batches meta_FillCache cap cf threads background "/mnt/jfs"
             ["/mnt/jfs/x"; "/mnt/jfs/y"; "/other/z"] tr in
  fst r = Ret tt /\
  writes (snd r) = writes tr ++ [batch_frame meta_FillCache threads background ["/x"; "/y"]] /\
  warnings (snd r) = warnings tr ++ ["/other/z"] /\
  warmed (snd r) = (warmed tr + 2)%nat.
Proof.
  intros Hcap Hacc r. subst r.
  assert (Hpos : (0 < cap)%nat) by (destruct Hcap as [-> | ->]; [lia | apply batchMax_pos]).
  assert (Hch : chunks cap (stripped "/mnt/jfs" ["/mnt/jfs/x"; "/mnt/jfs/y"; "/other/z"])
                = [["/x"; "/y"]]).
  { destruct Hcap as [-> | ->]; [reflexivity|].
    apply (chunks_short batchMax batchMax_pos). unfold batchMax. simpl. lia. }
  destruct (send_batches_spec meta_FillCache cap Hpos cf threads background
              "/mnt/jfs" ["/mnt/jfs/x"; "/mnt/jfs/y"; "/other/z"] tr)
    as (sent & Hw & _ & Hpost).
  rewrite (send_batches_accepted meta_FillCache cap Hpos) in * by done.
  destruct Hpost as (-> & Hwarn & Hwarmed). rewrite Hch in Hw.
  split; [reflexivity|]. split; [exact Hw|]. split; assumption.
Qed.

Lemma filter_touches_app (t1 t2 : trace) :
  List.filter touches_mount (t1 ++ t2)
  = List.filter touches_mount t1 ++ List.filter touches_mount t2.
Proof. apply List.filter_app. Qed.

(** C8.  With no argument and no non-blank line in the input file (or no
    input file), [warmup] logs that there is nothing to warm up and
    returns: it resolves no mount point, opens no control file and writes
    no frame. *)
Theorem C8_empty_input (fuel : nat) (env : Env) (ctx : Context) (tr : trace) :
  ctx_args ctx = [] ->
  (ctx_file ctx = "" \/
   exists lines, os_Open env (ctx_file ctx) = inl (lines, None) /\
                 Forall (fun l => strings_TrimSpace env l = "") lines) ->
  let r := warmup meta_FillCache fuel env ctx tr in
  fst r = Ret tt /\
  snd r = tr ++ (if bool_decide (ctx_file ctx ≠ "")
                 then [EvOpen (ctx_file ctx); EvInfo NothingToWarmUp;
                       EvClose (ctx_file ctx)]
                 else [EvInfo NothingToWarmUp]) /\
  writes (snd r) = writes tr /\
  reads (snd r) = reads tr /\
  List.filter touches_mount (snd r) = List.filter touches_mount tr.
Proof.
  intros Hargs Hfile r.
  assert (Hrun : r = (Ret tt,
            tr ++ (if bool_decide (ctx_file ctx ≠ "")
                   then [EvOpen (ctx_file ctx); EvInfo NothingToWarmUp;
                         EvClose (ctx_file ctx)]
                   else [EvInfo NothingToWarmUp]))).
  { subst r. unfold warmup. rewrite run_bind, read_paths_run, Hargs.
    unfold close_file.
    destruct Hfile as [Hnone | (lines & Hopen & Hblank)].
    - rewrite Hnone. rewrite !bool_decide_eq_false_2 by (intros H; now apply H).
      reflexivity.
    - destruct (bool_decide (ctx_file ctx ≠ "")) eqn:E; [|reflexivity].
      rewrite Hopen, (file_paths_blank env lines Hblank). cbn [app].
      rewrite run_emit_then. unfold emit. now rewrite <- !app_assoc. }
  rewrite Hrun. cbn [fst snd].
  split; [reflexivity|]. split; [reflexivity|].
  rewrite writes_app, reads_app, filter_touches_app.
  destruct (bool_decide (ctx_file ctx ≠ "")); cbn;
    rewrite ?app_nil_r, ?Nat.add_0_r; done.
Qed.

(** C9.  The two bytes of the thread-count field, which follow the path
    block, hold the requested count modulo [2^16]; a larger count is sent
    as its remainder and the call goes on as it does for the remainder. *)
Theorem C9_thread_count_truncated (paths : string) (threads : Z) (background : bool) :
  le_value (take 2 (drop (12 + length (bytes_of paths))
                      (frame meta_FillCache paths threads background)))
    = threads mod 2 ^ 16 /\
  frame meta_FillCache paths threads background
    = frame meta_FillCache paths (threads mod 2 ^ 16) background /\
  (forall cf batch count tr,
     sendCommand meta_FillCache cf batch count threads background tr
     = sendCommand meta_FillCache cf batch count (threads mod 2 ^ 16) background tr).
Proof.
  assert (Hidem : uint16 (threads mod 2 ^ 16) = uint16 threads).
  { unfold uint16. apply Z.mod_mod. lia. }
  assert (Hframe : forall p, frame meta_FillCache p threads background
            = frame meta_FillCache p (threads mod 2 ^ 16) background).
  { intros p. rewrite !frame_fields, Hidem. reflexivity. }
  split; [|split].
  - rewrite frame_fields.
    rewrite !app_assoc, <- (app_assoc _ (le_bytes 2 _)).
    rewrite drop_app_length'.
    + rewrite take_app_length' by now rewrite length_le_bytes.
      rewrite le_field; [reflexivity|]. apply uint16_range.
    + rewrite !length_app, !length_le_bytes. lia.
  - apply Hframe.
  - intros cf batch count tr. unfold sendCommand.
    destruct (slice_to batch count) as [b|]; [|reflexivity].
    cbn [or_panic]. rewrite !run_bind, !run_ret. now rewrite Hframe.
Qed.

Lemma warmup_mount_fatal (fuel : nat) (env : Env) (ctx : Context) (tr tr1 tr2 : trace)
    (path0 : string) (rest : list string) (f : fatal) :
  read_paths env ctx tr = (Ret (path0 :: rest), tr1) ->
  find_mount_point fuel env path0 tr1 = (Fatal f, tr2) ->
  warmup meta_FillCache fuel env ctx tr = (Fatal f, tr2).
Proof.
  intros Hread Hmount. unfold warmup. rewrite run_bind, Hread, run_bind, Hmount.
  reflexivity.
Qed.

(** C10.  The paths are the arguments followed by the lines of the file,
    and the mount point is looked for from the first of them only: when
    [filepath.Abs] or [os.Stat] fails on it, or the walk from it comes to
    ["/"], the run ends there, whatever the other paths are. *)
Theorem C10_first_path_decides (fuel : nat) (env : Env) (ctx : Context)
    (tr tr1 : trace) (path0 : string) (rest : list string) :
  read_paths env ctx tr = (Ret (path0 :: rest), tr1) ->
  let r := warmup meta_FillCache fuel env ctx tr in
  ((ctx_file ctx = "" /\ path0 :: rest = ctx_args ctx) \/
   (exists lines, os_Open env (ctx_file ctx) = inl (lines, None) /\
                  path0 :: rest = ctx_args ctx ++ file_paths env lines)) /\
  (forall f tr2, find_mount_point fuel env path0 tr1 = (Fatal f, tr2) ->
                 r = (Fatal f, tr2)) /\
  (forall e, filepath_Abs env path0 = inr e ->
             fst r = Fatal (FailedToGetAbs path0 e)) /\
  (forall first e, filepath_Abs env path0 = inl first ->
                   os_Stat_IsDir env first = inr e ->
                   fst r = Fatal (FailedToStat first e)) /\
  (forall first is_dir k,
     filepath_Abs env path0 = inl first ->
     os_Stat_IsDir env first = inl is_dir ->
     climbs env (if is_dir then first else filepath_Dir first) k ->
     candidate (if is_dir then first else filepath_Dir first) k = "/" ->
     (k <= fuel)%nat ->
     fst r = Fatal (NotInsideJuiceFS first)).
Proof.
  intros Hread r. subst r.
  split; [|split; [|split; [|split]]].
  - rewrite read_paths_run in Hread.
    destruct (bool_decide (ctx_file ctx ≠ "")) eqn:E.
    + right. destruct (os_Open env (ctx_file ctx)) as [[lines [e|]]|e]; try done.
      exists lines. split; [reflexivity|]. now inversion Hread.
    + left. apply bool_decide_eq_false in E. split.
      * destruct (decide (ctx_file ctx = "")); [done|]. now exfalso; apply E.
      * now inversion Hread.
  - intros f tr2 Hf. eapply warmup_mount_fatal; eassumption.
  - intros e Habs.
    erewrite warmup_mount_fatal; [reflexivity | exact Hread |].
    unfold find_mount_point. rewrite run_emit_then, Habs. reflexivity.
  - intros first e Habs Hstat.
    erewrite warmup_mount_fatal; [reflexivity | exact Hread |].
    unfold find_mount_point. rewrite run_emit_then, Habs, run_emit_then, Hstat.
    reflexivity.
  - intros first is_dir k Habs Hstat Hcl Hroot Hfuel.
    destruct (find_mount_point_walk env fuel tr1 path0 first is_dir k Habs Hstat Hcl)
      as [_ Hnot].
    erewrite warmup_mount_fatal; [reflexivity | exact Hread |].
    apply Hnot; assumption.
Qed.

End Properties.

(** * The properties at concrete inputs *)

Lemma ok_file_accepts (background : bool) : accepts ok_file background.
Proof. split; intros; reflexivity. Defined.

(** C1 as stated fails: an entry with a newline comes back as two. *)
Lemma C1_newline_counterexample :
  writes (snd (sendCommand FillCache_example ok_file [newline_entry] 1 50 false []))
    = [frame FillCache_example newline_entry 50 false] /\
  option_map (fun r => block_entries (req_block r))
    (parse_frame (frame FillCache_example newline_entry 50 false))
    = Some ["/a"; "b"] /\
  ["/a"; "b"] ≠ [newline_entry].
Proof.
  split; [reflexivity|]. split; [reflexivity|]. discriminate.
Qed.

Lemma C1_frame_layout_witness :
  0 <= FillCache_example < 2 ^ 32 /\
  (2 <= length ["/x"; "/y"])%nat /\
  len (strings_Join (take 2 ["/x"; "/y"]) nl) + 7 < 2 ^ 32 /\
  parse_frame (frame FillCache_example (strings_Join ["/x"; "/y"] nl) 50 false)
    = Some {| req_command := FillCache_example;
              req_size := 12;
              req_block_size := 5;
              req_block := strings_Join ["/x"; "/y"] nl;
              req_threads := 50;
              req_background := 0 |} /\
  block_entries (strings_Join ["/x"; "/y"] nl) = ["/x"; "/y"].
Proof.
  assert (H1 : 0 <= FillCache_example < 2 ^ 32) by (unfold FillCache_example; lia).
  assert (H2 : (2 <= length ["/x"; "/y"])%nat) by (simpl; lia).
  assert (H3 : len (strings_Join (take 2 ["/x"; "/y"]) nl) + 7 < 2 ^ 32)
    by (vm_compute; reflexivity).
  destruct (C1_frame_layout FillCache_example ok_file ["/x"; "/y"] 2 50 false [] H1 H2 H3)
    as (_ & _ & Hparse & Hsplit).
  split; [exact H1|]. split; [exact H2|]. split; [exact H3|].
  split; [exact Hparse|].
  apply Hsplit; [lia | repeat constructor].
Defined.

Lemma C2_batching_partitions_witness :
  Forall (fun p => under "/mnt/jfs" p = true) ["/mnt/jfs/x"; "/mnt/jfs/y"] /\
  fst (send_batches FillCache_example batchMax ok_file 50 false "/mnt/jfs"
         ["/mnt/jfs/x"; "/mnt/jfs/y"] []) = Ret tt /\
  concat (chunks batchMax (map (strip "/mnt/jfs") ["/mnt/jfs/x"; "/mnt/jfs/y"]))
    = ["/x"; "/y"].
Proof.
  assert (H : Forall (fun p => under "/mnt/jfs" p = true) ["/mnt/jfs/x"; "/mnt/jfs/y"])
    by (repeat constructor).
  destruct (C2_batching_partitions FillCache_example ok_file 50 false "/mnt/jfs"
              ["/mnt/jfs/x"; "/mnt/jfs/y"] [] H)
    as (_ & _ & Hacc & _ & Hconcat & _).
  split; [exact H|]. split; [apply Hacc, ok_file_accepts | exact Hconcat].
Defined.

Lemma C3_mount_resolution_witness :
  fst (find_mount_point 2 example_env "/a/b/c/file.txt" []) = Ret "/a/b".
Proof.
  destruct (C3_mount_resolution example_env 2 []) as (_ & _ & _ & H).
  apply (H 2); [reflexivity | reflexivity | reflexivity | lia | reflexivity | lia].
Defined.

Lemma C5_status_byte_witness :
  (1 <= length ["/x"])%nat /\
  fst (sendCommand FillCache_example failing_file ["/x"] 1 50 false [])
    = Fatal (WarmUpFailed x02) /\
  fst (sendCommand FillCache_example ok_file ["/x"] 1 50 false []) = Ret tt.
Proof.
  assert (H : (1 <= length ["/x"])%nat) by (simpl; lia).
  split; [exact H|]. split.
  - destruct (C5_status_byte FillCache_example failing_file ["/x"] 1 50 [] H eq_refl)
      as (_ & _ & Hout).
    destruct (Hout 1 None x02 eq_refl) as (_ & Hbad & _).
    apply Hbad; [reflexivity | reflexivity | discriminate].
  - destruct (C5_status_byte FillCache_example ok_file ["/x"] 1 50 [] H eq_refl)
      as (_ & _ & Hout).
    destruct (Hout 1 None x00 eq_refl) as (Hgood & _).
    apply Hgood; reflexivity.
Defined.

Lemma C6_background_returns_witness :
  (1 <= length ["/x"])%nat /\
  sendCommand FillCache_example failing_file ["/x"] 1 50 true []
    = (Ret tt, [EvWrite (frame FillCache_example "/x" 50 true);
                EvInfo (WarmUpInBackground 1)]).
Proof.
  assert (H : (1 <= length ["/x"])%nat) by (simpl; lia).
  split; [exact H|].
  destruct (C6_background_returns FillCache_example failing_file ["/x"] 1 50 [] H eq_refl)
    as (Hrun & _).
  exact Hrun.
Defined.

(** C7 as stated fails: the frame written is that of [["/x"; "/y"]], which
    is not the frame of [["x"; "y"]]. *)
Lemma C7_leading_slash_counterexample :
  writes (snd (send_batches FillCache_example 2 ok_file 50 false "/mnt/jfs"
                 ["/mnt/jfs/x"; "/mnt/jfs/y"; "/other/z"] []))
    = [batch_frame FillCache_example 50 false ["/x"; "/y"]] /\
  option_map (fun r => block_entries (req_block r))
    (parse_frame (batch_frame FillCache_example 50 false ["/x"; "/y"]))
    = Some ["/x"; "/y"] /\
  batch_frame FillCache_example 50 false ["/x"; "/y"]
    ≠ batch_frame FillCache_example 50 false ["x"; "y"].
Proof.
  split; [reflexivity|]. split; [reflexivity|]. discriminate.
Qed.

Lemma C7_example_run_witness :
  accepts ok_file false /\
  writes (snd (send_batches FillCache_example 2 ok_file 50 false "/mnt/jfs"
                 ["/mnt/jfs/x"; "/mnt/jfs/y"; "/other/z"] []))
    = [batch_frame FillCache_example 50 false ["/x"; "/y"]] /\
  warnings (snd (send_batches FillCache_example 2 ok_file 50 false "/mnt/jfs"
                   ["/mnt/jfs/x"; "/mnt/jfs/y"; "/other/z"] []))
    = ["/other/z"] /\
  warmed (snd (send_batches FillCache_example 2 ok_file 50 false "/mnt/jfs"
                 ["/mnt/jfs/x"; "/mnt/jfs/y"; "/other/z"] []))
    = 2%nat.
Proof.
  split; [apply ok_file_accepts|].
  destruct (C7_example_run FillCache_example 2 ok_file 50 false []
              (or_introl eq_refl) (ok_file_accepts false))
    as (_ & Hw & Hwarn & Hwarmed).
  split; [exact Hw|]. split; [exact Hwarn | exact Hwarmed].
Defined.

Lemma C8_empty_input_witness :
  ctx_args blank_ctx = [] /\
  warmup FillCache_example 0 blank_env blank_ctx []
    = (Ret tt, [EvOpen "list.txt"; EvInfo NothingToWarmUp; EvClose "list.txt"]).
Proof.
  split; [reflexivity|].
  assert (Hfile : ctx_file blank_ctx = "" \/
            exists lines, os_Open blank_env (ctx_file blank_ctx) = inl (lines, None) /\
                          Forall (fun l => strings_TrimSpace blank_env l = "") lines).
  { right. exists [""; ""]. split; [reflexivity | repeat constructor]. }
  destruct (C8_empty_input FillCache_example 0 blank_env blank_ctx [] eq_refl Hfile)
    as (Hret & Htr & _).
  rewrite (surjective_pairing (warmup _ _ _ _ _)), Hret, Htr. reflexivity.
Defined.

Lemma C10_first_path_decides_witness :
  read_paths example_env example_ctx [] = (Ret ["/other/z"; "/mnt/jfs/x"], []) /\
  under "/mnt/jfs" "/mnt/jfs/x" = true /\
  fst (find_mount_point 2 example_env "/mnt/jfs/x" []) = Ret "/mnt/jfs" /\
  fst (warmup FillCache_example 2 example_env example_ctx [])
    = Fatal (NotInsideJuiceFS "/other/z").
Proof.
  split; [reflexivity|]. split; [reflexivity|]. split; [reflexivity|].
  destruct (C10_first_path_decides FillCache_example 2 example_env example_ctx [] []
              "/other/z" ["/mnt/jfs/x"] eq_refl)
    as (_ & _ & _ & _ & Hroot).
  apply (Hroot "/other/z" false 1%nat); try reflexivity; [|lia].
  intros j Hj. assert (j = O) as -> by lia. split; [discriminate|].
  exists 2. split; [reflexivity | discriminate].
Defined.

(** ** The model at work *)

Example Dir_file : filepath_Dir "/a/b/c/file.txt" = "/a/b/c".
Proof. reflexivity. Qed.

Example Dir_top : filepath_Dir "/a" = "/".
Proof. reflexivity. Qed.

Example Dir_root : filepath_Dir "/" = "/".
Proof. reflexivity. Qed.

Example Dir_trailing : filepath_Dir "/a/b/" = "/a/b".
Proof. reflexivity. Qed.

Example Dir_dots : filepath_Dir "/a/../b/./c" = "/b".
Proof. reflexivity. Qed.

Example Dir_relative : filepath_Dir "file" = ".".
Proof. reflexivity. Qed.

Example Clean_updir : filepath_Clean "../../a/../../b" = "../../../b".
Proof. reflexivity. Qed.

Example Clean_rooted_updir : filepath_Clean "/../a//b/" = "/a/b".
Proof. reflexivity. Qed.

Example Split_empty : strings_Split1 "" newline = [""].
Proof. reflexivity. Qed.

(** A whole run: [juicefs warmup /mnt/jfs/x /other/z /mnt/jfs/y]. *)
Example warmup_run :
  warmup FillCache_example 2 example_env
    {| ctx_file := ""; ctx_args := ["/mnt/jfs/x"; "/other/z"; "/mnt/jfs/y"];
       ctx_threads := 50; ctx_background := false |} []
  = (Ret tt,
     [EvAbs "/mnt/jfs/x"; EvStat "/mnt/jfs/x"; EvGetFileInode "/mnt/jfs";
      EvOpenController "/mnt/jfs"; EvAddCountBar 3;
      EvWarn "/other/z" "/mnt/jfs";
      EvWrite (batch_frame FillCache_example 50 false ["/x"; "/y"]);
      EvRead; EvIncrBy 2; EvDone; EvCloseController]).
Proof. vm_compute. reflexivity. Qed.

(** The test of the loop is a test on strings: a path in a directory whose
    name starts with the mount point's is sent, and a relative path is
    skipped even when it is the one the mount point was found from. *)
Example sibling_directory_is_sent :
  stripped "/mnt/jfs" ["/mnt/jfs2/x"] = ["2/x"].
Proof. reflexivity. Qed.

Example relative_path_is_skipped :
  skipped "/mnt/jfs" ["x"; "/mnt/jfs/y"] = ["x"].
Proof. reflexivity. Qed.

(** A status byte other than zero ends the run after the first frame. *)
Example failed_run_stops :
  send_batches FillCache_example 1 failing_file 50 false "/mnt/jfs"
    ["/mnt/jfs/x"; "/mnt/jfs/y"] []
  = (Fatal (WarmUpFailed x02),
     [EvAddCountBar 2;
      EvWrite (batch_frame FillCache_example 50 false ["/x"]); EvRead]).
Proof. vm_compute. reflexivity. Qed.

(** * Further properties of [sendCommand] and [warmup] *)

Lemma channel_app (t1 t2 : trace) : channel (t1 ++ t2) = channel t1 ++ channel t2.
Proof.
  induction t1 as [|e t1 IH]; [reflexivity|].
  destruct e; simpl; now rewrite IH.
Qed.

Lemma mount_loop_lookup_fails (env : Env) (k : nat) :
  forall (fuel : nat) (start : string) (tr : trace) (e : error),
  climbs env start k -> candidate start k ≠ "/" ->
  utils_GetFileInode env (candidate start k) = inr e ->
  (k < fuel)%nat ->
  mount_loop fuel env start tr
    = (Fatal (FailedToLookupInode (candidate start k) e), tr ++ queries start (S k)).
Proof.
  induction k as [|k IH]; intros fuel start tr e Hcl Hne Hino Hfuel.
  - destruct fuel as [|fuel]; [lia|].
    change (candidate start 0) with start in *.
    cbn [mount_loop]. rewrite bool_decide_eq_true_2 by done.
    rewrite run_emit_then, Hino, queries_S. reflexivity.
  - destruct fuel as [|fuel]; [lia|].
    apply climbs_S in Hcl as (H0 & (inode & Hi & Hi1) & Hcl).
    rewrite (mount_loop_step _ _ _ _ _ H0 Hi Hi1).
    rewrite candidate_S in *. rewrite (IH fuel _ _ e) by (done || lia).
    rewrite (queries_S start), <- app_assoc. reflexivity.
Qed.

Lemma same_io_emit (t : trace) (e : event) :
  match e with EvWrite _ | EvRead | EvWarn _ _ => False | _ => True end ->
  same_io (t ++ [e]) t.
Proof.
  intros He. unfold same_io. rewrite channel_app, writes_app, warnings_app.
  destruct e; try done; simpl; now rewrite !app_nil_r.
Qed.

Lemma same_io_trans (t1 t2 t3 : trace) : same_io t1 t2 -> same_io t2 t3 -> same_io t1 t3.
Proof. intros (? & ? & ?) (? & ? & ?). repeat split; congruence. Qed.

Lemma mount_loop_quiet (env : Env) (fuel : nat) :
  forall (mp : string) (tr : trace),
  same_io (snd (mount_loop fuel env mp tr)) tr.
Proof.
  induction fuel as [|fuel IH]; intros mp tr; cbn [mount_loop];
    destruct (bool_decide (mp ≠ "/")); try done.
  rewrite run_emit_then.
  destruct (utils_GetFileInode env mp) as [inode|e]; [|now apply same_io_emit].
  destruct (bool_decide (inode = 1)); [now apply same_io_emit|].
  eapply same_io_trans; [apply IH | now apply same_io_emit].
Qed.

Lemma find_mount_point_quiet (env : Env) (fuel : nat) (path0 : string) (tr : trace) :
  same_io (snd (find_mount_point fuel env path0 tr)) tr.
Proof.
  unfold find_mount_point. rewrite run_emit_then.
  assert (H1 : same_io (tr ++ [EvAbs path0]) tr) by now apply same_io_emit.
  destruct (filepath_Abs env path0) as [first|e]; [|exact H1].
  rewrite run_emit_then.
  assert (H2 : same_io ((tr ++ [EvAbs path0]) ++ [EvStat first]) tr)
    by (eapply same_io_trans; [now apply same_io_emit | exact H1]).
  destruct (os_Stat_IsDir env first) as [is_dir|e]; [|exact H2].
  rewrite run_bind.
  pose proof (mount_loop_quiet env fuel (if is_dir then first else filepath_Dir first)
                ((tr ++ [EvAbs path0]) ++ [EvStat first])) as Hq.
  destruct (mount_loop _ _ _ _) as [[mp|f| |] tr']; cbn [snd] in *;
    try (eapply same_io_trans; [exact Hq | exact H2]).
  destruct (bool_decide (mp = "/")); [unfold fatalf | rewrite run_ret];
    cbn [snd]; (eapply same_io_trans; [exact Hq | exact H2]).
Qed.

Lemma read_paths_quiet (env : Env) (ctx : Context) (tr : trace) :
  same_io (snd (read_paths env ctx tr)) tr.
Proof.
  rewrite read_paths_run. destruct (bool_decide (ctx_file ctx ≠ "")); [|done].
  destruct (os_Open env (ctx_file ctx)) as [[lines [e|]]|e]; cbn [snd];
    now apply same_io_emit.
Qed.

Section Further.

Variable meta_FillCache : Z.

(** X1.  When the write of the frame fails, [sendCommand] ends with the
    fatal "Write message" of that error, in background or not, and does not
    read the control file. *)
Theorem X1_write_failure_is_fatal (cf : File) (batch : list string) (count : nat)
    (threads : Z) (background : bool) (tr : trace) (e : error) :
  (count <= length batch)%nat ->
  file_Write cf (length (writes tr))
    (frame meta_FillCache (strings_Join (take count batch) nl) threads background)
    = Some e ->
  sendCommand meta_FillCache cf batch count threads background tr
    = (Fatal (WriteMessage e),
       tr ++ [EvWrite (frame meta_FillCache (strings_Join (take count batch) nl)
                         threads background)]) /\
  reads (snd (sendCommand meta_FillCache cf batch count threads background tr))
    = reads tr.
Proof.
  intros Hc Hw. rewrite sendCommand_run by done. cbv zeta. rewrite Hw.
  split; [reflexivity|]. cbn [snd]. rewrite reads_app. simpl. lia.
Qed.

(** X2.  The frame has 15 bytes more than the path block, and the size
    [8 + 4 + 3 + len(paths)] the buffer is made with is the number of bytes
    put into it, as long as that number fits 32 bits. *)
Theorem X2_buffer_is_filled (paths : string) (threads : Z) (background : bool) :
  len paths + 15 < 2 ^ 32 ->
  Bytes (frame_buffer meta_FillCache paths threads background)
    = frame meta_FillCache paths threads background /\
  Z.of_nat (length (frame meta_FillCache paths threads background)) = 15 + len paths /\
  buf_size (frame_buffer meta_FillCache paths threads background)
    = Z.of_nat (length (buf_bytes (frame_buffer meta_FillCache paths threads background))).
Proof.
  intros Hlen. split; [reflexivity|]. split; [apply frame_length|].
  change (buf_bytes (frame_buffer meta_FillCache paths threads background))
    with (frame meta_FillCache paths threads background).
  rewrite frame_length.
  change (buf_size (frame_buffer meta_FillCache paths threads background))
    with (uint32 (8 + 4 + 3 + uint32 (len paths))).
  now apply frame_fills_buffer.
Qed.

(** X3.  When the input file cannot be opened, or reading it fails, the
    run ends there, whatever the arguments are: no mount point is looked
    for and the control file is not touched. *)
Theorem X3_input_file_failure_is_fatal (fuel : nat) (env : Env) (ctx : Context)
    (tr : trace) :
  ctx_file ctx ≠ "" ->
  (forall e, os_Open env (ctx_file ctx) = inr e ->
     warmup meta_FillCache fuel env ctx tr
       = (Fatal (FailedToOpenFile (ctx_file ctx) e), tr ++ [EvOpen (ctx_file ctx)])) /\
  (forall lines e, os_Open env (ctx_file ctx) = inl (lines, Some e) ->
     warmup meta_FillCache fuel env ctx tr
       = (Fatal (ReadingFileFailed (ctx_file ctx) e), tr ++ [EvOpen (ctx_file ctx)])).
Proof.
  intros Hf. split.
  - intros e Hopen. unfold warmup. rewrite run_bind, read_paths_run.
    rewrite bool_decide_eq_true_2 by done. now rewrite Hopen.
  - intros lines e Hopen. unfold warmup. rewrite run_bind, read_paths_run.
    rewrite bool_decide_eq_true_2 by done. now rewrite Hopen.
Qed.

(** X4.  When the inode of a directory on the way up cannot be read, before
    any directory with inode 1 and before ["/"], the search ends with the
    fatal "Failed to lookup inode" of that directory. *)
Theorem X4_inode_lookup_failure_is_fatal (env : Env) (fuel : nat) (tr : trace)
    (path0 first : string) (is_dir : bool) (k : nat) (e : error) :
  filepath_Abs env path0 = inl first ->
  os_Stat_IsDir env first = inl is_dir ->
  climbs env (if is_dir then first else filepath_Dir first) k ->
  candidate (if is_dir then first else filepath_Dir first) k ≠ "/" ->
  utils_GetFileInode env (candidate (if is_dir then first else filepath_Dir first) k)
    = inr e ->
  (k < fuel)%nat ->
  find_mount_point fuel env path0 tr
    = (Fatal (FailedToLookupInode
                (candidate (if is_dir then first else filepath_Dir first) k) e),
       tr ++ [EvAbs path0; EvStat first]
          ++ queries (if is_dir then first else filepath_Dir first) (S k)).
Proof.
  intros Habs Hstat Hcl Hne Hino Hfuel.
  rewrite (find_mount_point_run env fuel path0 first is_dir tr Habs Hstat).
  rewrite (mount_loop_lookup_fails env k fuel _ _ e) by done.
  now rewrite <- app_assoc.
Qed.

(** X5.  When the control file of the mount point cannot be opened, the run
    ends with the fatal "Failed to open control file": nothing was written
    or read, and no path was looked at. *)
Theorem X5_missing_control_file_is_fatal (fuel : nat) (env : Env) (ctx : Context)
    (tr tr1 tr2 : trace) (path0 mp : string) (rest : list string) :
  read_paths env ctx tr = (Ret (path0 :: rest), tr1) ->
  find_mount_point fuel env path0 tr1 = (Ret mp, tr2) ->
  openController env mp = None ->
  warmup meta_FillCache fuel env ctx tr
    = (Fatal (FailedToOpenControl mp), tr2 ++ [EvOpenController mp]) /\
  channel (snd (warmup meta_FillCache fuel env ctx tr)) = channel tr.
Proof.
  intros Hread Hmount Hopen.
  assert (Hrun : warmup meta_FillCache fuel env ctx tr
                 = (Fatal (FailedToOpenControl mp), tr2 ++ [EvOpenController mp])).
  { unfold warmup. rewrite run_bind, Hread, run_bind, Hmount, run_emit_then, Hopen.
    reflexivity. }
  split; [exact Hrun|]. rewrite Hrun. cbn [snd].
  rewrite channel_app. cbn [channel]. rewrite app_nil_r.
  pose proof (find_mount_point_quiet env fuel path0 tr1) as (H2 & _).
  rewrite Hmount in H2. cbn [snd] in H2. rewrite H2.
  pose proof (read_paths_quiet env ctx tr) as (H1 & _).
  rewrite Hread in H1. exact H1.
Qed.



Lemma length_stripped_skipped (mp : string) (paths : list string) :
  (length (stripped mp paths) + length (skipped mp paths) = length paths)%nat.
Proof.
  unfold stripped, skipped. rewrite length_map.
  induction paths as [|p paths IH]; [reflexivity|].
  cbn [List.filter]. destruct (under mp p); cbn [negb length]; lia.
Qed.

Lemma exchanges_add (background : bool) (a b : nat) :
  exchanges background (a + b) = exchanges background a ++ exchanges background b.
Proof.
  unfold exchanges. now rewrite replicate_add, concat_app.
Qed.

Lemma exchanges_one (background : bool) :
  exchanges background 1 = if background then [true] else [true; false].
Proof. unfold exchanges. simpl. apply app_nil_r. Qed.

Lemma writes_in_channel (tr : trace) :
  length (writes tr) = length (List.filter (fun b => b) (channel tr)).
Proof.
  induction tr as [|e tr IH]; [reflexivity|].
  destruct e; simpl; now rewrite ?IH.
Qed.

Lemma writes_in_exchanges (background : bool) (k : nat) :
  length (List.filter (fun b => b) (exchanges background k)) = k.
Proof.
  induction k as [|k IH]; [reflexivity|].
  change (S k) with (1 + k)%nat. rewrite exchanges_add, List.filter_app, length_app, IH.
  rewrite exchanges_one. now destruct background.
Qed.

Lemma rooted_under (mp p : string) :
  is_rooted mp = true -> under mp p = true -> is_rooted p = true.
Proof.
  intros Hr Hu. rewrite (under_strip mp p Hu).
  destruct (rooted_inv mp Hr) as (r & ->). apply rooted_slash.
Qed.

Lemma candidate_rooted (start : string) (k : nat) :
  is_rooted start = true -> is_rooted (candidate start k) = true.
Proof.
  intros H. induction k as [|k IH]; [exact H|].
  change (candidate start (S k)) with (filepath_Dir (candidate start k)).
  now apply Dir_rooted.
Qed.

Section Channel.

Variable cap : nat.
Hypothesis cap_pos : (0 < cap)%nat.
Variable cf : File.
Variable threads : Z.
Variable background : bool.
Variable mp : string.

Local Abbreviation send := (sendCommand meta_FillCache cf).
Local Abbreviation step :=
  (batch_step meta_FillCache cap cf threads background mp (String.length mp)).

(** How a run of requests shows on the control file: [k] full exchanges,
    and one more write when the run ended on it. *)
Lemma sendCommand_channel (batch : list string) (count : nat) (tr : trace) :
  (count <= length batch)%nat ->
  match fst (send batch count threads background tr) with
  | Ret _ =>
      channel (snd (send batch count threads background tr))
        = channel tr ++ exchanges background 1
  | Fatal _ =>
      channel (snd (send batch count threads background tr))
        = channel tr ++ exchanges background 1 \/
      channel (snd (send batch count threads background tr))
        = channel tr ++ [true]
  | _ => False
  end.
Proof.
  intros Hc. rewrite sendCommand_run by done. cbv zeta. rewrite exchanges_one.
  destruct (file_Write cf _ _) as [e|].
  { cbn [fst snd]. right. now rewrite channel_app. }
  destruct background.
  { cbn [fst snd]. rewrite channel_app. reflexivity. }
  cbn [fst snd]. rewrite channel_app. cbn [channel].
  destruct (status_outcome _) as [[]|f| |] eqn:E; try (now left); try reflexivity.
  - unfold status_outcome in E. destruct (file_Read cf _) as [[n err] b].
    destruct (_ || _); [done|]. now destruct (bool_decide _).
  - unfold status_outcome in E. destruct (file_Read cf _) as [[n err] b].
    destruct (_ || _); [done|]. now destruct (bool_decide _).
Qed.

Lemma step_outside_any (st : list string * nat) (path : string) (tr : trace) :
  under mp path = false ->
  step st path tr = (Ret st, tr ++ [EvWarn path mp]).
Proof.
  intros Hu. unfold batch_step. destruct st as [batch index].
  unfold under in Hu. rewrite Hu. reflexivity.
Qed.

Lemma loop_channel (paths : list string) :
  forall (batch : list string) (index : nat) (tr : trace),
  length batch = cap -> (index < cap)%nat ->
  exists k : nat,
    match fst (for_range step (batch, index) paths tr) with
    | Ret (batch', index') =>
        length batch' = cap /\ (index' < cap)%nat /\
        channel (snd (for_range step (batch, index) paths tr))
          = channel tr ++ exchanges background k
    | Fatal _ =>
        channel (snd (for_range step (batch, index) paths tr))
          = channel tr ++ exchanges background k \/
        channel (snd (for_range step (batch, index) paths tr))
          = channel tr ++ exchanges background k ++ [true]
    | _ => False
    end.
Proof.
  induction paths as [|p rest IH]; intros batch index tr Hlen Hidx.
  { exists O. cbn [for_range]. rewrite run_ret. cbn [fst snd].
    unfold exchanges. simpl. now rewrite app_nil_r. }
  rewrite for_range_cons.
  destruct (under mp p) eqn:Hu.
  2:{ rewrite (step_outside_any _ _ _ Hu).
      destruct (IH batch index (tr ++ [EvWarn p mp]) Hlen Hidx) as (k & Hk).
      exists k. rewrite channel_app in Hk. cbn [channel] in Hk.
      now rewrite app_nil_r in Hk. }
  rewrite step_under by (done || lia).
  cbv zeta. set (batch1 := <[index := strip mp p]> batch).
  assert (Hlen1 : length batch1 = cap) by (subst batch1; now rewrite length_insert).
  destruct (cap <=? S index)%nat eqn:Hflush.
  2:{ apply Nat.leb_gt in Hflush. apply (IH batch1 (S index) tr Hlen1 Hflush). }
  pose proof (sendCommand_channel batch1 (S index) tr ltac:(lia)) as Hs.
  destruct (send batch1 (S index) threads background tr) as [[[]|f| |] tr1];
    cbn [fst snd] in Hs; try done.
  - destruct (IH batch1 O (tr1 ++ [EvIncrBy (S index)]) Hlen1 cap_pos) as (k & Hk).
    rewrite channel_app in Hk. cbn [channel] in Hk.
    rewrite app_nil_r, Hs, <- !app_assoc in Hk.
    exists (1 + k)%nat. rewrite exchanges_add, <- !app_assoc. exact Hk.
  - cbn [fst snd]. destruct Hs as [Hs | Hs].
    + exists 1%nat. now left.
    + exists O. right. exact Hs.
Qed.

Lemma send_batches_channel (paths : list string) (tr : trace) :
  exists k : nat,
    match fst (send_batches meta_FillCache cap cf threads background mp paths tr) with
    | Ret _ =>
        channel (snd (send_batches meta_FillCache cap cf threads background mp paths tr))
          = channel tr ++ exchanges background k
    | Fatal _ =>
        channel (snd (send_batches meta_FillCache cap cf threads background mp paths tr))
          = channel tr ++ exchanges background k \/
        channel (snd (send_batches meta_FillCache cap cf threads background mp paths tr))
          = channel tr ++ exchanges background k ++ [true]
    | _ => False
    end.
Proof.
  rewrite send_batches_run.
  set (tr0 := tr ++ [EvAddCountBar (Z.of_nat (length paths))]).
  assert (H0 : channel tr0 = channel tr)
    by (subst tr0; rewrite channel_app; apply app_nil_r).
  destruct (loop_channel paths (replicate cap "") O tr0) as (k & Hk).
  { apply length_replicate. }
  { exact cap_pos. }
  destruct (for_range _ _ _ _) as [[[batch index]|f| |] tr'];
    cbn [fst snd] in Hk; try done.
  2:{ exists k. cbn [fst snd]. now rewrite <- H0. }
  destruct Hk as (Hlen & Hidx & Hch). rewrite H0 in Hch.
  destruct (0 <? index)%nat; [|exists k; exact Hch].
  pose proof (sendCommand_channel batch index tr' ltac:(lia)) as Hs.
  destruct (send batch index threads background tr') as [[[]|f| |] tr''];
    cbn [fst snd] in Hs; try done; cbn [fst snd].
  - exists (k + 1)%nat. rewrite channel_app. cbn [channel].
    now rewrite app_nil_r, Hs, Hch, exchanges_add, app_assoc.
  - destruct Hs as [Hs | Hs].
    + exists (k + 1)%nat. left. now rewrite Hs, Hch, exchanges_add, app_assoc.
    + exists k. right. now rewrite Hs, Hch, app_assoc.
Qed.

Lemma for_range_all_outside (paths : list string) :
  forall (st : list string * nat) (tr : trace),
  Forall (fun p => under mp p = false) paths ->
  for_range step st paths tr = (Ret st, tr ++ map (fun p => EvWarn p mp) paths).
Proof.
  induction paths as [|p rest IH]; intros st tr Hall.
  - cbn [for_range map]. now rewrite run_ret, app_nil_r.
  - apply Forall_cons in Hall as [Hp Hrest].
    rewrite for_range_cons, (step_outside_any _ _ _ Hp), (IH _ _ Hrest).
    now rewrite <- app_assoc.
Qed.

End Channel.

(** X6.  Whatever the paths and the control file, the loop over the paths
    never indexes the batch array out of range and never slices a path
    beyond its end: it returns, or it ends in the fatal error of a write or
    a read of the control file. *)
Theorem X6_batching_stays_in_range (cap : nat) (cf : File) (threads : Z)
    (background : bool) (mp : string) (paths : list string) (tr : trace) :
  (0 < cap)%nat ->
  (exists tr', send_batches meta_FillCache cap cf threads background mp paths tr
               = (Ret tt, tr')) \/
  (exists f tr', send_batches meta_FillCache cap cf threads background mp paths tr
                 = (Fatal f, tr') /\ channel_failure f).
Proof.
  intros Hcap.
  destruct (send_batches_spec meta_FillCache cap Hcap cf threads background mp paths tr)
    as (sent & _ & _ & Hpost).
  destruct (send_batches _ _ _ _ _ _ _ _) as [[[]|f| |] tr']; cbn [fst] in Hpost;
    try done.
  - left. now exists tr'.
  - right. exists f, tr'. split; [reflexivity|].
    eapply send_failed_channel; eassumption.
Qed.

(** X7.  On a run that returns, the progress bar has counted the paths that
    were sent and none of the skipped ones: together with the skipped paths
    they are the input paths, the number the bar was made for. *)
Theorem X7_bar_counts_sent_paths (cf : File) (threads : Z) (background : bool)
    (mp : string) (paths : list string) (tr : trace) :
  fst (send_batches meta_FillCache batchMax cf threads background mp paths tr) = Ret tt ->
  warmed (snd (send_batches meta_FillCache batchMax cf threads background mp paths tr))
    = (warmed tr + length (List.filter (under mp) paths))%nat /\
  (warmed (snd (send_batches meta_FillCache batchMax cf threads background mp paths tr))
   + length (skipped mp paths)
   = warmed tr + length paths)%nat.
Proof.
  intros Hret.
  destruct (send_batches_spec meta_FillCache batchMax batchMax_pos cf threads
              background mp paths tr) as (sent & _ & _ & Hpost).
  rewrite Hret in Hpost. destruct Hpost as (_ & _ & Hwarmed).
  pose proof (length_stripped_skipped mp paths) as Hlen.
  rewrite Hwarmed. unfold stripped in *. rewrite length_map in *. lia.
Qed.


(** X9.  Requests are not pipelined.  Not in background, the control file
    sees a write, then a read, then the next write: on a run that returns,
    one read after each frame; on a run that fails, the same up to the
    failing write or read.  In background it sees writes only. *)
Theorem X9_one_answer_per_frame (cf : File) (threads : Z) (background : bool)
    (mp : string) (paths : list string) (tr : trace) :
  exists k : nat,
    (fst (send_batches meta_FillCache batchMax cf threads background mp paths tr) = Ret tt ->
     k = length (chunks batchMax (stripped mp paths)) /\
     channel (snd (send_batches meta_FillCache batchMax cf threads background mp paths tr))
       = channel tr ++ exchanges background k) /\
    (forall f,
       fst (send_batches meta_FillCache batchMax cf threads background mp paths tr)
         = Fatal f ->
       channel (snd (send_batches meta_FillCache batchMax cf threads background mp paths tr))
         = channel tr ++ exchanges background k \/
       channel (snd (send_batches meta_FillCache batchMax cf threads background mp paths tr))
         = channel tr ++ exchanges background k ++ [true]).
Proof.
  destruct (send_batches_channel batchMax batchMax_pos cf threads background mp paths tr)
    as (k & Hk).
  exists k. split.
  - intros Hret. rewrite Hret in Hk. split; [|exact Hk].
    destruct (send_batches_spec meta_FillCache batchMax batchMax_pos cf threads
                background mp paths tr) as (sent & Hw & _ & Hpost).
    rewrite Hret in Hpost. destruct Hpost as (-> & _).
    apply (f_equal (@length _)) in Hw.
    rewrite length_app, length_map, !writes_in_channel, Hk in Hw.
    rewrite List.filter_app, length_app, writes_in_exchanges in Hw. lia.
  - intros f Hf. now rewrite Hf in Hk.
Qed.

(** X10.  When no path has the mount point as a prefix, every path is
    warned about, in order, nothing is written to the control file and the
    loop returns, whatever the control file would have answered. *)
Theorem X10_nothing_under_mount (cap : nat) (cf : File) (threads : Z)
    (background : bool) (mp : string) (paths : list string) (tr : trace) :
  Forall (fun p => strings_HasPrefix p mp = false) paths ->
  send_batches meta_FillCache cap cf threads background mp paths tr
    = (Ret tt,
       tr ++ [EvAddCountBar (Z.of_nat (length paths))]
          ++ map (fun p => EvWarn p mp) paths) /\
  writes (snd (send_batches meta_FillCache cap cf threads background mp paths tr))
    = writes tr.
Proof.
  intros Hall.
  assert (Hrun : send_batches meta_FillCache cap cf threads background mp paths tr
                 = (Ret tt,
                    tr ++ [EvAddCountBar (Z.of_nat (length paths))]
                       ++ map (fun p => EvWarn p mp) paths)).
  { rewrite send_batches_run, for_range_all_outside by exact Hall.
    cbn. now rewrite <- app_assoc. }
  split; [exact Hrun|]. rewrite Hrun. cbn [snd].
  rewrite !writes_app. cbn [writes].
  assert (Hnone : writes (map (fun p => EvWarn p mp) paths) = []).
  { clear. induction paths as [|p paths IH]; [reflexivity | exact IH]. }
  now rewrite Hnone, !app_nil_r.
Qed.

(** X11.  The mount point found from a rooted absolute path is rooted, so a
    path given relative to the working directory never has it as a prefix:
    it is among the skipped paths, and warned about on a run that returns,
    even when it is the path the mount point was found from. *)
Theorem X11_relative_paths_are_skipped (env : Env) (fuel : nat) (path0 first mp : string)
    (tr tr' : trace) :
  filepath_Abs env path0 = inl first ->
  is_rooted first = true ->
  find_mount_point fuel env path0 tr = (Ret mp, tr') ->
  is_rooted mp = true /\
  forall cf threads background paths tr2 p,
    p ∈ paths -> is_rooted p = false ->
    p ∈ skipped mp paths /\
    (fst (send_batches meta_FillCache batchMax cf threads background mp paths tr2) = Ret tt ->
     p ∈ warnings (snd (send_batches meta_FillCache batchMax cf threads background
                          mp paths tr2))).
Proof.
  intros Habs Hr Hrun.
  assert (Hmp : is_rooted mp = true).
  { destruct (find_mount_point_returns env fuel tr path0 mp tr' Hrun)
      as (first' & is_dir & k & Habs' & _ & _ & -> & _).
    rewrite Habs in Habs'. inversion Habs'; subst first'.
    apply candidate_rooted. destruct is_dir; [exact Hr | now apply Dir_rooted]. }
  split; [exact Hmp|].
  intros cf threads background paths tr2 p Hin Hrel.
  assert (Hskip : p ∈ skipped mp paths).
  { unfold skipped. apply list_elem_of_In, filter_In. split; [now apply list_elem_of_In|].
    destruct (under mp p) eqn:Hu; [|reflexivity].
    rewrite (rooted_under mp p Hmp Hu) in Hrel. discriminate. }
  split; [exact Hskip|].
  intros Hret.
  destruct (send_batches_spec meta_FillCache batchMax batchMax_pos cf threads
              background mp paths tr2) as (sent & _ & _ & Hpost).
  rewrite Hret in Hpost. destruct Hpost as (_ & -> & _).
  apply elem_of_app. now right.
Qed.


(** X13.  Every entry of every frame written is what follows the mount
    point in an input path that has the mount point as a prefix.  The
    other paths are warned about and skipped: the loop never stops because
    of them (it stops early on a failure of the control file only), and a
    run that returns has warned about each of them, in order, and has sent
    all the others. *)
Theorem X13_entries_follow_mount_prefix (cf : File) (threads : Z) (background : bool)
    (mp : string) (paths : list string) (tr : trace) :
  let r := send_batches meta_FillCache batchMax cf threads background mp paths tr in
  (exists sent,
     writes (snd r) = writes tr ++ map (batch_frame meta_FillCache threads background) sent /\
     (forall b e, b ∈ sent -> e ∈ b ->
        exists p, p ∈ paths /\ strings_HasPrefix p mp = true /\ p = mp +:+ e) /\
     (fst r = Ret tt -> concat sent = stripped mp paths)) /\
  (fst r = Ret tt -> warnings (snd r) = warnings tr ++ skipped mp paths) /\
  (fst r = Ret tt \/ exists f, fst r = Fatal f /\ channel_failure f) /\
  (accepts cf background -> fst r = Ret tt).
Proof.
  intros r. subst r.
  destruct (send_batches_spec meta_FillCache batchMax batchMax_pos cf threads
              background mp paths tr) as (sent & Hw & Hpre & Hpost).
  split; [|split; [|split]].
  - exists sent. split; [exact Hw|]. split.
    + intros b e Hb He. apply elem_of_stripped.
      rewrite <- (concat_chunks batchMax batchMax_pos (stripped mp paths)).
      destruct Hpre as [rest ->]. rewrite concat_app.
      apply elem_of_app. left. apply list_elem_of_In, in_concat.
      exists b. split; now apply list_elem_of_In.
    + intros Hret. rewrite Hret in Hpost. destruct Hpost as (-> & _).
      apply concat_chunks, batchMax_pos.
  - intros Hret. rewrite Hret in Hpost. apply Hpost.
  - destruct (fst (send_batches _ _ _ _ _ _ _ _)) as [[]|f| |]; try done.
    + now left.
    + right. exists f. split; [reflexivity|].
      eapply send_failed_channel; eassumption.
  - intros Hacc. apply send_batches_accepted; [apply batchMax_pos | exact Hacc].
Qed.

End Further.

(** ** The further properties at concrete inputs *)

Lemma X1_write_failure_is_fatal_witness :
  (1 <= length ["/x"])%nat /\
  sendCommand FillCache_example full_file ["/x"] 1 50 false [EvWrite []]
    = (Fatal (WriteMessage "no space left"),
       [EvWrite []; EvWrite (frame FillCache_example "/x" 50 false)]).
Proof.
  assert (H : (1 <= length ["/x"])%nat) by (simpl; lia).
  split; [exact H|].
  destruct (X1_write_failure_is_fatal FillCache_example full_file ["/x"] 1 50 false
              [EvWrite []] "no space left" H eq_refl) as [Hrun _].
  exact Hrun.
Defined.

Lemma X2_buffer_is_filled_witness :
  len "/x" + 15 < 2 ^ 32 /\
  buf_size (frame_buffer FillCache_example "/x" 50 false) = 17 /\
  Z.of_nat (length (frame FillCache_example "/x" 50 false)) = 17.
Proof.
  assert (H : len "/x" + 15 < 2 ^ 32) by (vm_compute; reflexivity).
  destruct (X2_buffer_is_filled FillCache_example "/x" 50 false H) as (_ & Hlen & Hsize).
  split; [exact H|]. split; [|exact Hlen].
  rewrite Hsize. exact Hlen.
Defined.

Lemma X3_input_file_failure_is_fatal_witness :
  ctx_file unreadable_ctx ≠ "" /\
  warmup FillCache_example 2 example_env unreadable_ctx []
    = (Fatal (FailedToOpenFile "missing.txt" "no such file or directory"),
       [EvOpen "missing.txt"]) /\
  warmup FillCache_example 2 broken_env unreadable_ctx []
    = (Fatal (ReadingFileFailed "missing.txt" "read error"), [EvOpen "missing.txt"]).
Proof.
  assert (H : ctx_file unreadable_ctx ≠ "") by discriminate.
  split; [exact H|]. split.
  - destruct (X3_input_file_failure_is_fatal FillCache_example 2 example_env
                unreadable_ctx [] H) as [Hopen _].
    exact (Hopen "no such file or directory" eq_refl).
  - destruct (X3_input_file_failure_is_fatal FillCache_example 2 broken_env
                unreadable_ctx [] H) as [_ Hscan].
    exact (Hscan ["/mnt/jfs/x"] "read error" eq_refl).
Defined.

Lemma X4_inode_lookup_failure_is_fatal_witness :
  find_mount_point 2 broken_env "/mnt/jfs/x" []
    = (Fatal (FailedToLookupInode "/mnt" "permission denied"),
       [EvAbs "/mnt/jfs/x"; EvStat "/mnt/jfs/x";
        EvGetFileInode "/mnt/jfs"; EvGetFileInode "/mnt"]).
Proof.
  apply (X4_inode_lookup_failure_is_fatal broken_env 2 [] "/mnt/jfs/x" "/mnt/jfs/x"
           false 1%nat "permission denied"); try reflexivity; [| discriminate | lia].
  intros j Hj. assert (j = O) as -> by lia. split; [discriminate|].
  exists 2. split; [reflexivity | discriminate].
Defined.

Lemma X5_missing_control_file_is_fatal_witness :
  fst (warmup FillCache_example 2 closed_env run_ctx [])
    = Fatal (FailedToOpenControl "/mnt/jfs") /\
  channel (snd (warmup FillCache_example 2 closed_env run_ctx [])) = [].
Proof.
  destruct (X5_missing_control_file_is_fatal FillCache_example 2 closed_env run_ctx
              [] []
              [EvAbs "/mnt/jfs/x"; EvStat "/mnt/jfs/x"; EvGetFileInode "/mnt/jfs"]
              "/mnt/jfs/x" "/mnt/jfs" ["/other/z"; "/mnt/jfs/y"]
              eq_refl eq_refl eq_refl) as [Hrun Hquiet].
  split; [now rewrite Hrun | exact Hquiet].
Defined.

Lemma X6_batching_stays_in_range_witness :
  (0 < 1)%nat /\
  ((exists tr', send_batches FillCache_example 1 full_file 50 false "/mnt/jfs"
                  ["/mnt/jfs/x"; "/mnt/jfs/y"] [] = (Ret tt, tr')) \/
   (exists f tr', send_batches FillCache_example 1 full_file 50 false "/mnt/jfs"
                    ["/mnt/jfs/x"; "/mnt/jfs/y"] [] = (Fatal f, tr') /\
                  channel_failure f)).
Proof.
  assert (H : (0 < 1)%nat) by lia.
  split; [exact H|].
  exact (X6_batching_stays_in_range FillCache_example 1 full_file 50 false "/mnt/jfs"
           ["/mnt/jfs/x"; "/mnt/jfs/y"] [] H).
Defined.

Lemma X7_bar_counts_sent_paths_witness :
  fst (send_batches FillCache_example batchMax ok_file 50 false "/mnt/jfs"
         ["/mnt/jfs/x"; "/other/z"; "/mnt/jfs/y"] []) = Ret tt /\
  warmed (snd (send_batches FillCache_example batchMax ok_file 50 false "/mnt/jfs"
                 ["/mnt/jfs/x"; "/other/z"; "/mnt/jfs/y"] [])) = 2%nat.
Proof.
  assert (H : fst (send_batches FillCache_example batchMax ok_file 50 false "/mnt/jfs"
                     ["/mnt/jfs/x"; "/other/z"; "/mnt/jfs/y"] []) = Ret tt)
    by (vm_compute; reflexivity).
  split; [exact H|].
  destruct (X7_bar_counts_sent_paths FillCache_example ok_file 50 false "/mnt/jfs"
              ["/mnt/jfs/x"; "/other/z"; "/mnt/jfs/y"] [] H) as [Hcount _].
  exact Hcount.
Defined.


Lemma X10_nothing_under_mount_witness :
  Forall (fun p => strings_HasPrefix p "/mnt/jfs" = false) ["/other/z"; "x"] /\
  send_batches FillCache_example batchMax failing_file 50 false "/mnt/jfs"
    ["/other/z"; "x"] []
  = (Ret tt, [EvAddCountBar 2; EvWarn "/other/z" "/mnt/jfs"; EvWarn "x" "/mnt/jfs"]).
Proof.
  assert (H : Forall (fun p => strings_HasPrefix p "/mnt/jfs" = false) ["/other/z"; "x"])
    by (repeat constructor).
  split; [exact H|].
  destruct (X10_nothing_under_mount FillCache_example batchMax failing_file 50 false
              "/mnt/jfs" ["/other/z"; "x"] [] H) as [Hrun _].
  exact Hrun.
Defined.

Lemma X11_relative_paths_are_skipped_witness :
  find_mount_point 2 example_env "/mnt/jfs/x" []
    = (Ret "/mnt/jfs",
       [EvAbs "/mnt/jfs/x"; EvStat "/mnt/jfs/x"; EvGetFileInode "/mnt/jfs"]) /\
  is_rooted "/mnt/jfs" = true /\
  "x" ∈ skipped "/mnt/jfs" ["/mnt/jfs/y"; "x"].
Proof.
  split; [reflexivity|].
  destruct (X11_relative_paths_are_skipped FillCache_example example_env 2
              "/mnt/jfs/x" "/mnt/jfs/x" "/mnt/jfs" []
              [EvAbs "/mnt/jfs/x"; EvStat "/mnt/jfs/x"; EvGetFileInode "/mnt/jfs"]
              eq_refl eq_refl eq_refl) as [Hroot Hskip].
  split; [exact Hroot|].
  destruct (Hskip ok_file 50 false ["/mnt/jfs/y"; "x"] [] "x") as [Hin _].
  - apply list_elem_of_In. right. now left.
  - reflexivity.
  - exact Hin.
Defined.

